(** * AI Tree Identifier: the encoder, the identification client and the
      UI state of [App], embedded in Rocq.

    Sources: [services/geminiService.ts] ([fileToGenerativePart],
    [identifyTree]) and the [App] component with its [ImageUploader] and
    [ResultDisplay]. *)

From Stdlib Require Import Strings.String Strings.Ascii Strings.Byte List NArith ZArith Bool Lia.
From Stdlib Require Import Floats.SpecFloat.
From ExtLib Require Import Structures.Monad Structures.MonadExc.
Import ListNotations.
Import MonadNotation.
Local Open Scope string_scope.
Local Open Scope list_scope.
Local Open Scope monad_scope.

(* ===================================================================== *)
(** * Platform: base64 (RFC 4648), as [FileReader.readAsDataURL] emits it *)
(* ===================================================================== *)

Module Base64.

Local Open Scope N_scope.

Definition alphabet : list ascii :=
  list_ascii_of_string
    "ABCDEFGHIJKLMNOPQRSTUVWXYZabcdefghijklmnopqrstuvwxyz0123456789+/".

Definition pad : ascii := "="%char.

(** The character of a 6-bit group. *)
Definition char_of (n : N) : ascii := nth (N.to_nat n) alphabet pad.

Fixpoint find_index (c : ascii) (l : list ascii) (i : N) : option N :=
  match l with
  | [] => None
  | d :: l' => if Ascii.eqb c d then Some i else find_index c l' (N.succ i)
  end.

(** The 6-bit group of a character of the alphabet. *)
Definition index_of (c : ascii) : option N := find_index c alphabet 0.

(** A 24-bit group, from three octets and from four 6-bit groups. *)
Definition group24 (a b c : N) : N := a * 65536 + b * 256 + c.
Definition ungroup24 (s1 s2 s3 s4 : N) : N :=
  s1 * 262144 + s2 * 4096 + s3 * 64 + s4.

Definition sextet1 (n : N) : N := n / 262144.
Definition sextet2 (n : N) : N := (n / 4096) mod 64.
Definition sextet3 (n : N) : N := (n / 64) mod 64.
Definition sextet4 (n : N) : N := n mod 64.

Definition octet1 (n : N) : N := n / 65536.
Definition octet2 (n : N) : N := (n / 256) mod 256.
Definition octet3 (n : N) : N := n mod 256.

Fixpoint encode (bs : list byte) : string :=
  match bs with
  | [] => EmptyString
  | [a] =>
      let n := group24 (Byte.to_N a) 0 0 in
      String (char_of (sextet1 n)) (String (char_of (sextet2 n))
        (String pad (String pad EmptyString)))
  | [a; b] =>
      let n := group24 (Byte.to_N a) (Byte.to_N b) 0 in
      String (char_of (sextet1 n)) (String (char_of (sextet2 n))
        (String (char_of (sextet3 n)) (String pad EmptyString)))
  | a :: b :: c :: rest =>
      let n := group24 (Byte.to_N a) (Byte.to_N b) (Byte.to_N c) in
      String (char_of (sextet1 n)) (String (char_of (sextet2 n))
        (String (char_of (sextet3 n)) (String (char_of (sextet4 n))
          (encode rest))))
  end.

Definition bytes_of (ns : list N) : option (list byte) :=
  fold_right
    (fun n acc =>
       match Byte.of_N n, acc with
       | Some b, Some l => Some (b :: l)
       | _, _ => None
       end)
    (Some []) ns.

Definition prepend (ns : list N) (tl : option (list byte))
  : option (list byte) :=
  match bytes_of ns, tl with
  | Some l, Some t => Some (l ++ t)
  | _, _ => None
  end.

(** Decoding reads four characters at a time; padding is accepted only
    in the last quantum. *)
Fixpoint decode (s : string) : option (list byte) :=
  match s with
  | EmptyString => Some []
  | String c1 (String c2 (String c3 (String c4 rest))) =>
      match index_of c1, index_of c2 with
      | Some s1, Some s2 =>
          if Ascii.eqb c3 pad then
            if Ascii.eqb c4 pad then
              match rest with
              | EmptyString => bytes_of [octet1 (ungroup24 s1 s2 0 0)]
              | _ => None
              end
            else None
          else
            match index_of c3 with
            | Some s3 =>
                if Ascii.eqb c4 pad then
                  match rest with
                  | EmptyString =>
                      let n := ungroup24 s1 s2 s3 0 in
                      bytes_of [octet1 n; octet2 n]
                  | _ => None
                  end
                else
                  match index_of c4 with
                  | Some s4 =>
                      let n := ungroup24 s1 s2 s3 s4 in
                      prepend [octet1 n; octet2 n; octet3 n] (decode rest)
                  | None => None
                  end
            | None => None
            end
      | _, _ => None
      end
  | _ => None
  end.

End Base64.


(* ===================================================================== *)
(** * Platform: strings, thrown values, promises                          *)
(* ===================================================================== *)

(** JavaScript strings are modelled by [string]: the UTF-8 of the text
    (the data URLs, MIME types and messages at hand are ASCII; the text
    of a response may carry any character). *)

Module JsString.

(** [s.split(sep)] for a one-character separator: never empty, one more
    segment than there are separators. *)
Fixpoint split (sep : ascii) (s : string) : list string :=
  match s with
  | EmptyString => [EmptyString]
  | String c s' =>
      if Ascii.eqb c sep then EmptyString :: split sep s'
      else match split sep s' with
           | [] => [String c EmptyString]
           | seg :: segs => String c seg :: segs
           end
  end.

(** The characters that [trim] removes are the WhiteSpace and the
    LineTerminator code points of ECMAScript. In the UTF-8 of a text they
    are the single bytes of U+0009-U+000D and U+0020, the two bytes of
    U+00A0, and the three bytes of U+1680, U+2000-U+200A, U+2028,
    U+2029, U+202F, U+205F, U+3000 and U+FEFF. *)
Definition is_space (c : ascii) : bool :=
  match nat_of_ascii c with
  | 9 | 10 | 11 | 12 | 13 | 32 => true
  | _ => false
  end.

Definition is_space2 (c d : ascii) : bool :=
  ((N_of_ascii d =? 160) && (N_of_ascii c =? 194))%N.

Definition is_space3 (c d e : ascii) : bool :=
  let a := N_of_ascii c in
  let b := N_of_ascii d in
  let z := N_of_ascii e in
  (((b =? 154) && (a =? 225) && (z =? 128))
   || ((b =? 128) && (a =? 226)
       && (((128 <=? z) && (z <=? 138)) || (z =? 168) || (z =? 169)
           || (z =? 175)))
   || ((b =? 129) && (a =? 226) && (z =? 159))
   || ((b =? 128) && (a =? 227) && (z =? 128))
   || ((b =? 187) && (a =? 239) && (z =? 191)))%N.

(** The text after the white space character at its head, if there is
    one. *)
Definition skip_space (s : string) : option string :=
  match s with
  | String c r =>
      if is_space c then Some r
      else match r with
           | String d r1 =>
               if is_space2 c d then Some r1
               else match r1 with
                    | String e r2 =>
                        if is_space3 c d e then Some r2 else None
                    | EmptyString => None
                    end
           | EmptyString => None
           end
  | EmptyString => None
  end.

Fixpoint trimStart (s : string) : string :=
  match s with
  | String c r =>
      if is_space c then trimStart r
      else match r with
           | String d r1 =>
               if is_space2 c d then trimStart r1
               else match r1 with
                    | String e r2 =>
                        if is_space3 c d e then trimStart r2 else s
                    | EmptyString => s
                    end
           | EmptyString => s
           end
  | EmptyString => EmptyString
  end.

(** A text of white space only. *)
Fixpoint blank (s : string) : bool :=
  match s with
  | String c r =>
      if is_space c then blank r
      else match r with
           | String d r1 =>
               if is_space2 c d then blank r1
               else match r1 with
                    | String e r2 =>
                        if is_space3 c d e then blank r2 else false
                    | EmptyString => false
                    end
           | EmptyString => false
           end
  | EmptyString => true
  end.

(** A byte that can begin a white space character: a white space byte
    or the first byte of a longer character. *)
Definition lead (c : ascii) : Prop :=
  is_space c = true \/ (194 <= N_of_ascii c)%N.

(** A text that is empty or begins with such a byte. *)
Definition leads (w : string) : Prop :=
  match w with
  | EmptyString => True
  | String d _ => lead d
  end.

(** The text without the white space at its end: what is left before the
    longest tail of white space only. *)
Fixpoint trimEnd (s : string) : string :=
  match s with
  | EmptyString => EmptyString
  | String c s' => if blank s then EmptyString else String c (trimEnd s')
  end.

(** [s.trim()] *)
Definition trim (s : string) : string := trimEnd (trimStart s).

(** Truthiness of a string: only the empty string is falsy. *)
Definition truthy (s : string) : bool :=
  match s with EmptyString => false | _ => true end.

(** Whether the character occurs in the string. *)
Fixpoint has (c : ascii) (s : string) : bool :=
  match s with
  | EmptyString => false
  | String d s' => Ascii.eqb d c || has c s'
  end.

(** [s.includes(t)] *)
Fixpoint includes (t s : string) : bool :=
  String.prefix t s ||
  match s with
  | EmptyString => false
  | String _ s' => includes t s'
  end.

End JsString.

(** A value that a [catch] clause receives: an [Error] object (any
    subclass) with its [message], or a value that is not an [Error]
    (a string, a number, an object without prototype [Error], [null],
    [undefined]). *)
Inductive JsThrown : Type :=
| JsError (message : string)
| JsOther.

(** The fate of a promise. [Pending] is a promise that no event will ever
    settle: whoever awaits it waits forever. *)
Inductive Promise (A : Type) : Type :=
| Fulfilled (value : A)
| Rejected (reason : JsThrown)
| Pending.
Arguments Fulfilled {A} value.
Arguments Rejected {A} reason.
Arguments Pending {A}.

(* ===================================================================== *)
(** * Platform: JSON values                                               *)
(* ===================================================================== *)

(** What [JSON.parse] returns. A number is a binary64 value; an object
    keeps its members in source order (a later duplicate key wins on
    lookup). *)
#[local] Unset Elimination Schemes.
Inductive json : Type :=
| JNull
| JBool (b : bool)
| JNum (x : spec_float)
| JStr (s : string)
| JArr (items : list json)
| JObj (members : list (string * json)).
#[local] Set Elimination Schemes.

Module Json.

(** [o[key]] on a parsed value: the last member of that name of an
    object, [None] (undefined) otherwise. *)
Fixpoint lookup (key : string) (members : list (string * json))
  : option json :=
  match members with
  | [] => None
  | (k, v) :: rest =>
      match lookup key rest with
      | Some v' => Some v'
      | None => if String.eqb k key then Some v else None
      end
  end.

Definition prop (key : string) (v : json) : option json :=
  match v with
  | JObj members => lookup key members
  | _ => None
  end.

Definition is_null (v : json) : bool :=
  match v with JNull => true | _ => false end.

(** JavaScript truthiness of a parsed value. *)
Definition truthy (v : json) : bool :=
  match v with
  | JNull => false
  | JBool b => b
  | JNum (S754_zero _) | JNum S754_nan => false
  | JNum _ => true
  | JStr s => JsString.truthy s
  | JArr _ | JObj _ => true
  end.

End Json.

(* ===================================================================== *)
(** * The request of [@google/genai] as [identifyTree] builds it          *)
(* ===================================================================== *)

(** The members of the library's [Type] enumeration. *)
Inductive Type_ : Type :=
| TYPE_UNSPECIFIED | STRING | NUMBER | INTEGER | BOOLEAN | ARRAY | OBJECT.

(** The fields of a [Schema] that the source sets. *)
#[local] Unset Elimination Schemes.
Inductive Schema : Type :=
| mkSchema (type : Type_) (description : option string)
    (items : option Schema) (properties : list (string * Schema))
    (required : list string).
#[local] Set Elimination Schemes.

Record InlineData : Type := mkInlineData {
  data : option string;   (* [None] is [undefined] *)
  mimeType : string
}.

Inductive Part : Type :=
| InlineDataPart (inlineData : InlineData)
| TextPart (text : string).

Record Content : Type := mkContent { parts : list Part }.

Record GenerateContentConfig : Type := mkConfig {
  responseMimeType : string;
  responseSchema : Schema
}.

Record GenerateContentParameters : Type := mkParameters {
  model : string;
  contents : list Content;
  config : GenerateContentConfig
}.

(** The response, as far as the source reads it: the [text] accessor,
    which is [undefined] when the response carries no text. *)
Record GenerateContentResponse : Type := mkResponse {
  text : option string
}.

(** [ai.models.generateContent], as the world answers one call. *)
Definition Client : Type :=
  GenerateContentParameters -> Promise GenerateContentResponse.

(* ===================================================================== *)
(** * Asynchronous computations                                           *)
(* ===================================================================== *)

(** An [async] function body: the requests it has issued, in order, and
    how its promise ends. *)
Definition Async (A : Type) : Type :=
  (list GenerateContentParameters * Promise A)%type.

Definition issued {A} (c : Async A) : list GenerateContentParameters := fst c.
Definition outcome {A} (c : Async A) : Promise A := snd c.

#[global] Instance Monad_Async : Monad Async := {
  ret := fun _ a => ([], Fulfilled a);
  bind := fun _ _ c k =>
    match c with
    | (log, Fulfilled a) => let (log', p) := k a in (log ++ log', p)
    | (log, Rejected e) => (log, Rejected e)
    | (log, Pending) => (log, Pending)
    end
}.

(** [throw] and [try { ... } catch (error) { ... }]. *)
#[global] Instance Exc_Async : MonadExc JsThrown Async := {
  raise := fun _ e => ([], Rejected e);
  catch := fun _ c handler =>
    match c with
    | (log, Rejected e) => let (log', p) := handler e in (log ++ log', p)
    | _ => c
    end
}.

(** [await p] *)
Definition await {A} (p : Promise A) : Async A := ([], p).

(** A call of the client: logged, then awaited. *)
Definition generateContent (ai : Client) (params : GenerateContentParameters)
  : Async GenerateContentResponse :=
  ([params], ai params).

(* ===================================================================== *)
(** * Platform: files and [FileReader]                                    *)
(* ===================================================================== *)

(** A [File]: its declared MIME type, its bytes, and whether the
    underlying read succeeds when a reader asks for them. *)
Record File : Type := mkFile {
  name : string;
  type : string;
  bytes : list byte;
  readable : bool
}.

(** The media type in the data: URL of a blob: its type, and
    application/octet-stream for a blob without one. *)
Definition mediaType (file : File) : string :=
  match type file with
  | EmptyString => "application/octet-stream"
  | declared => declared
  end.

(** The data: URL of a blob (File API, RFC 2397): the media type, the
    base64 marker, the base64 of all its bytes. *)
Definition dataURL (file : File) : string :=
  "data:" ++ mediaType file ++ ";base64," ++ Base64.encode (bytes file).

(** [reader.result] when [loadend] fires after [readAsDataURL(file)]: the
    data: URL on success, [null] on a failed read (the reader fires
    [error], then [loadend]). *)
Definition FileReader_result (file : File) : option string :=
  if readable file then Some (dataURL file) else None.

(* ===================================================================== *)
(** * services/geminiService.ts                                           *)
(* ===================================================================== *)

(** The result of [JSON.parse]: the value, or the [SyntaxError] it throws,
    by its message. *)
Inductive ParseResult : Type :=
| Parsed (value : json)
| SyntaxError (message : string).

(** The schema that the request declares for the response. *)
Definition treeSchema : Schema :=
  mkSchema OBJECT None None
    [ ("commonName",
       mkSchema STRING (Some "The common name of the tree.") None [] []);
      ("scientificName",
       mkSchema STRING (Some "The scientific (Latin) name of the tree.")
         None [] []);
      ("description",
       mkSchema STRING
         (Some "A brief, interesting paragraph about the tree, including its characteristics and typical habitat.")
         None [] []);
      ("careTips",
       mkSchema ARRAY
         (Some "A short list of 3-4 essential care tips for this tree if it were in a garden.")
         (Some (mkSchema STRING None None [] [])) [] []) ]
    ["commonName"; "scientificName"; "description"].

(** The argument of [ai.models.generateContent] for an encoded image. *)
Definition request (imagePart : Part) : GenerateContentParameters :=
  {| model := "gemini-2.5-flash";
     contents :=
       [ {| parts := [imagePart; TextPart "Identify the tree in this image."] |} ];
     config :=
       {| responseMimeType := "application/json";
          responseSchema := treeSchema |} |}.

(** The files that the picker accepts, by their declared type. *)
Definition is_image (file : File) : Prop :=
  type file = "image/png" \/ type file = "image/jpeg".

(** The promise that [fileToGenerativePart] builds around the reader. Its
    executor takes [resolve] only. On [loadend] the listener resolves with
    [reader.result.split(',')[1]]. After a failed read [reader.result] is
    [null]: the listener throws a [TypeError] before it reaches [resolve],
    the event loop reports it, and nothing settles the promise. *)
Definition base64EncodedDataPromise (file : File) : Promise (option string) :=
  match FileReader_result file with
  | Some result => Fulfilled (nth_error (JsString.split "," result) 1)
  | None => Pending
  end.

Definition fileToGenerativePart (file : File) : Async Part :=
  encoded <- await (base64EncodedDataPromise file) ;;
  ret (InlineDataPart {| data := encoded; mimeType := type file |}).

(** The [TypeError] of [response.text.trim()] on an undefined [text]. *)
Definition undefined_trim : JsThrown :=
  JsError "Cannot read properties of undefined (reading 'trim')".

Definition identifyTree_prefix : string :=
  "Failed to identify the tree. The model responded with an error: ".

Definition identifyTree_unknown : string :=
  "An unknown error occurred while identifying the tree. Please try again.".

Section Service.

(** [JSON.parse] of the host. *)
Variable JSON_parse : string -> ParseResult.

(** The global [ai] client. *)
Variable ai : Client.

(** [response.text.trim()] *)
Definition response_text_trim (response : GenerateContentResponse)
  : Async string :=
  match text response with
  | Some t => ret (JsString.trim t)
  | None => raise undefined_trim
  end.

Definition parse (jsonText : string) : Async json :=
  match JSON_parse jsonText with
  | Parsed value => ret value
  | SyntaxError message => raise (JsError message)
  end.

(** The [try] block of [identifyTree]. *)
Definition identifyTree_try (imageFile : File) : Async json :=
  imagePart <- fileToGenerativePart imageFile ;;
  response <- generateContent ai (request imagePart) ;;
  jsonText <- response_text_trim response ;;
  data <- parse jsonText ;;
  ret data.

(** The [catch] clause of [identifyTree] (its [console.error] leaves no
    trace in the result). *)
Definition identifyTree_catch (error : JsThrown) : Async json :=
  match error with
  | JsError message => raise (JsError (identifyTree_prefix ++ message))
  | JsOther => raise (JsError identifyTree_unknown)
  end.

Definition identifyTree (imageFile : File) : Async json :=
  catch (identifyTree_try imageFile) identifyTree_catch.

End Service.

(* ===================================================================== *)
(** * Platform: a JSON reader (ECMA-404) for [JSON.parse]                 *)
(* ===================================================================== *)

(** The client is stated over any [JSON_parse]. This reader is the
    instance at which its properties are run on concrete responses. *)
Module JSON.

Local Open Scope char_scope.

Definition quote : ascii := "034".

Definition is_ws (c : ascii) : bool :=
  match c with
  | " " | "009" | "010" | "013" => true
  | _ => false
  end.

Fixpoint skip_ws (cs : list ascii) : list ascii :=
  match cs with
  | c :: rest => if is_ws c then skip_ws rest else cs
  | [] => []
  end.

Definition digit (c : ascii) : option Z :=
  let n := Z.of_N (N_of_ascii c) in
  if ((48 <=? n) && (n <=? 57))%Z then Some (n - 48)%Z else None.

Definition hex (c : ascii) : option N :=
  let n := N_of_ascii c in
  if ((48 <=? n) && (n <=? 57))%N then Some (n - 48)%N
  else if ((65 <=? n) && (n <=? 70))%N then Some (n - 55)%N
  else if ((97 <=? n) && (n <=? 102))%N then Some (n - 87)%N
  else None.

(** The longest run of decimal digits at the head. *)
Fixpoint take_digits (cs : list ascii) : list Z * list ascii :=
  match cs with
  | c :: rest =>
      match digit c with
      | Some d => let (ds, r) := take_digits rest in (d :: ds, r)
      | None => ([], cs)
      end
  | [] => ([], [])
  end.

Definition decimal (ds : list Z) : Z :=
  fold_left (fun acc d => acc * 10 + d)%Z ds 0%Z.

(** The binary64 value nearest to [(-1)^sign * m * 10^e] (ties to
    even), as [Number] of a numeric literal. *)
Definition to_binary64 (sign : bool) (m e : Z) : spec_float :=
  match m with
  | Zpos p =>
      if (0 <=? e)%Z then
        binary_normalize 53 1024
          (if sign then Z.opp (m * 10 ^ e) else m * 10 ^ e)%Z 0 false
      else
        match (10 ^ Z.opp e)%Z with
        | Zpos q =>
            SFdiv 53 1024 (S754_finite sign p 0) (S754_finite false q 0)
        | _ => S754_nan
        end
  | _ => S754_zero sign
  end.

(** number = [-] int [frac] [exp] *)
Definition number (cs : list ascii) : option (spec_float * list ascii) :=
  let (sign, cs1) :=
    match cs with "-" :: r => (true, r) | _ => (false, cs) end in
  let (int, cs2) := take_digits cs1 in
  match int with
  | [] => None
  | 0%Z :: _ :: _ => None
  | _ =>
      let frac_part :=
        match cs2 with
        | "." :: r =>
            let (fs, r') := take_digits r in
            match fs with [] => None | _ => Some (fs, r') end
        | _ => Some ([], cs2)
        end in
      match frac_part with
      | None => None
      | Some (frac, cs3) =>
          let exp_part :=
            match cs3 with
            | "e" :: r | "E" :: r =>
                let (neg, r1) :=
                  match r with
                  | "-" :: r' => (true, r')
                  | "+" :: r' => (false, r')
                  | _ => (false, r)
                  end in
                let (es, r2) := take_digits r1 in
                match es with
                | [] => None
                | _ => Some (if neg then Z.opp (decimal es) else decimal es, r2)
                end
            | _ => Some (0%Z, cs3)
            end in
          match exp_part with
          | None => None
          | Some (e, cs4) =>
              Some (to_binary64 sign (decimal (int ++ frac))
                      (e - Z.of_nat (length frac)), cs4)
          end
      end
  end.

(** UTF-8 of a code point (a lone surrogate is written as three bytes). *)
Definition utf8 (n : N) : list ascii :=
  let b (k : N) := ascii_of_N k in
  if (n <? 128)%N then [b n]
  else if (n <? 2048)%N then [b (192 + n / 64); b (128 + n mod 64)]%N
  else if (n <? 65536)%N then
    [b (224 + n / 4096); b (128 + (n / 64) mod 64); b (128 + n mod 64)]%N
  else
    [b (240 + n / 262144); b (128 + (n / 4096) mod 64);
     b (128 + (n / 64) mod 64); b (128 + n mod 64)]%N.

Definition hex4 (h1 h2 h3 h4 : ascii) : option N :=
  match hex h1, hex h2, hex h3, hex h4 with
  | Some a, Some b, Some c, Some d => Some (a * 4096 + b * 256 + c * 16 + d)%N
  | _, _, _, _ => None
  end.

Definition escape (c : ascii) : option ascii :=
  match c with
  | "034" => Some quote
  | "\" => Some "\"
  | "/" => Some "/"
  | "b" => Some "008"
  | "f" => Some "012"
  | "n" => Some "010"
  | "r" => Some "013"
  | "t" => Some "009"
  | _ => None
  end.

Definition is_high (n : N) : bool := ((55296 <=? n) && (n <? 56320))%N.
Definition is_low (n : N) : bool := ((56320 <=? n) && (n <? 57344))%N.

(** The characters of a string after its opening quote, up to and
    including the closing quote. *)
Fixpoint string_body (cs : list ascii) : option (list ascii * list ascii) :=
  match cs with
  | [] => None
  | "034" :: rest => Some ([], rest)
  | "\" :: "u" :: h1 :: h2 :: h3 :: h4 :: rest =>
      match hex4 h1 h2 h3 h4 with
      | None => None
      | Some hi =>
          let single :=
            match string_body rest with
            | Some (s, r) => Some (utf8 hi ++ s, r)
            | None => None
            end in
          match rest with
          | "\" :: "u" :: l1 :: l2 :: l3 :: l4 :: rest' =>
              match hex4 l1 l2 l3 l4 with
              | Some lo =>
                  if is_high hi && is_low lo then
                    match string_body rest' with
                    | Some (s, r) =>
                        Some (utf8 (65536 + (hi - 55296) * 1024
                                      + (lo - 56320))%N ++ s, r)
                    | None => None
                    end
                  else single
              | None => single
              end
          | _ => single
          end
      end
  | "\" :: c :: rest =>
      match escape c, string_body rest with
      | Some e, Some (s, r) => Some (e :: s, r)
      | _, _ => None
      end
  | c :: rest =>
      if (N_of_ascii c <? 32)%N then None
      else match string_body rest with
           | Some (s, r) => Some (c :: s, r)
           | None => None
           end
  end.

Definition string_literal (cs : list ascii) : option (string * list ascii) :=
  match string_body cs with
  | Some (s, r) => Some (string_of_list_ascii s, r)
  | None => None
  end.

(** value, the elements of an array after its bracket, the members of
    an object after its brace. [fuel] bounds the depth of the calls; each
    call reads at least one character, and [parse] gives twice the
    length of the text. *)
Fixpoint value (fuel : nat) (cs : list ascii) {struct fuel}
  : option (json * list ascii) :=
  match fuel with
  | O => None
  | S fuel' =>
      match skip_ws cs with
      | "{" :: rest =>
          match skip_ws rest with
          | "}" :: rest' => Some (JObj [], rest')
          | rest' => members fuel' rest' []
          end
      | "[" :: rest =>
          match skip_ws rest with
          | "]" :: rest' => Some (JArr [], rest')
          | rest' => elements fuel' rest' []
          end
      | "034" :: rest =>
          match string_literal rest with
          | Some (s, r) => Some (JStr s, r)
          | None => None
          end
      | "t" :: "r" :: "u" :: "e" :: rest => Some (JBool true, rest)
      | "f" :: "a" :: "l" :: "s" :: "e" :: rest => Some (JBool false, rest)
      | "n" :: "u" :: "l" :: "l" :: rest => Some (JNull, rest)
      | cs' =>
          match number cs' with
          | Some (x, r) => Some (JNum x, r)
          | None => None
          end
      end
  end
with elements (fuel : nat) (cs : list ascii) (acc : list json) {struct fuel}
  : option (json * list ascii) :=
  match fuel with
  | O => None
  | S fuel' =>
      match value fuel' cs with
      | Some (v, rest) =>
          match skip_ws rest with
          | "," :: rest' => elements fuel' rest' (v :: acc)
          | "]" :: rest' => Some (JArr (rev (v :: acc)), rest')
          | _ => None
          end
      | None => None
      end
  end
with members (fuel : nat) (cs : list ascii) (acc : list (string * json))
       {struct fuel} : option (json * list ascii) :=
  match fuel with
  | O => None
  | S fuel' =>
      match skip_ws cs with
      | "034" :: rest =>
          match string_literal rest with
          | Some (key, rest1) =>
              match skip_ws rest1 with
              | ":" :: rest2 =>
                  match value fuel' rest2 with
                  | Some (v, rest3) =>
                      match skip_ws rest3 with
                      | "," :: rest4 => members fuel' rest4 ((key, v) :: acc)
                      | "}" :: rest4 =>
                          Some (JObj (rev ((key, v) :: acc)), rest4)
                      | _ => None
                      end
                  | None => None
                  end
              | _ => None
              end
          | None => None
          end
      | _ => None
      end
  end.

(** [JSON.parse(text)]: one value between optional white space. The
    wording of a [SyntaxError] is the engine's own and differs between
    engines. For a text that ends before any value the message is V8's;
    the two other messages only tell the kinds of failure apart and
    stand for whatever the engine says. No statement depends on them. *)
Definition parse (text : string) : ParseResult :=
  let cs := list_ascii_of_string text in
  match skip_ws cs with
  | [] => SyntaxError "Unexpected end of JSON input"
  | _ =>
      match value (2 * length cs + 2) cs with
      | Some (v, rest) =>
          match skip_ws rest with
          | [] => Parsed v
          | _ => SyntaxError "Unexpected non-whitespace character after JSON"
          end
      | None => SyntaxError "Unexpected token in JSON"
      end
  end.

End JSON.

(* ===================================================================== *)
(** * types.ts and [ResultDisplay]                                        *)
(* ===================================================================== *)

(** Modelled from the spec: the declaration of [TreeData] ([types.ts] is
    not among the sources). "A record with fields commonName (string,
    required), scientificName (string, required), description (string,
    required), careTips (ordered sequence of strings, optional, 0..n
    items)." *)
Record TreeData : Type := mkTreeData {
  commonName : string;
  scientificName : string;
  description : string;
  careTips : option (list string)
}.

(** A parsed value read at type [TreeData]: an object whose three name
    members are strings and whose [careTips], when present, is an array
    of strings. [identifyTree] returns the parsed value unchecked; this
    reading says when that value has its declared type. *)
Definition as_string (v : json) : option string :=
  match v with JStr s => Some s | _ => None end.

Fixpoint as_strings (vs : list json) : option (list string) :=
  match vs with
  | [] => Some []
  | v :: rest =>
      match as_string v, as_strings rest with
      | Some s, Some ss => Some (s :: ss)
      | _, _ => None
      end
  end.

Definition as_TreeData (v : json) : option TreeData :=
  match Json.prop "commonName" v, Json.prop "scientificName" v,
        Json.prop "description" v with
  | Some (JStr c), Some (JStr s), Some (JStr d) =>
      match Json.prop "careTips" v with
      | None => Some (mkTreeData c s d None)
      | Some (JArr tips) =>
          match as_strings tips with
          | Some ts => Some (mkTreeData c s d (Some ts))
          | None => None
          end
      | Some _ => None
      end
  | _, _, _ => None
  end.

(** What [ResultDisplay] draws: the heading, the italic line, the
    paragraph, and the list of tips with their keys, present only for a
    non-empty [careTips]. *)
Record ResultCard : Type := mkCard {
  heading : string;
  subheading : string;
  paragraph : string;
  careTipsList : option (list (nat * string))
}.

Fixpoint indexed {A} (i : nat) (l : list A) : list (nat * A) :=
  match l with
  | [] => []
  | x :: rest => (i, x) :: indexed (S i) rest
  end.

Definition ResultDisplay (data : TreeData) : ResultCard :=
  {| heading := commonName data;
     subheading := scientificName data;
     paragraph := description data;
     careTipsList :=
       match careTips data with
       | Some (tip :: tips) => Some (indexed 0 (tip :: tips))
       | _ => None
       end |}.

(* ===================================================================== *)
(** * App: state, handlers, view                                          *)
(* ===================================================================== *)

(** An object URL, by its serial number. *)
Definition ObjectURL : Type := nat.

(** The four [useState] cells of [App], the memoised [previewUrl], the
    object URLs of the document (created, not revoked), and the calls of
    [handleIdentify] that are suspended at [await identifyTree(file)]. *)
Record AppState : Type := mkApp {
  selectedFile : option File;
  treeData : json;                (* [TreeData | null]; [JNull] is [null] *)
  isLoading : bool;
  error : option string;
  previewUrl : option ObjectURL;
  objectURLs : list ObjectURL;
  created : nat;
  awaiting : list File
}.

Definition initial : AppState :=
  {| selectedFile := None; treeData := JNull; isLoading := false;
     error := None; previewUrl := None; objectURLs := []; created := 0;
     awaiting := [] |}.

Definition setTreeData (v : json) (s : AppState) : AppState :=
  {| selectedFile := selectedFile s; treeData := v;
     isLoading := isLoading s; error := error s;
     previewUrl := previewUrl s; objectURLs := objectURLs s;
     created := created s; awaiting := awaiting s |}.

Definition setIsLoading (b : bool) (s : AppState) : AppState :=
  {| selectedFile := selectedFile s; treeData := treeData s;
     isLoading := b; error := error s;
     previewUrl := previewUrl s; objectURLs := objectURLs s;
     created := created s; awaiting := awaiting s |}.

Definition setError (e : option string) (s : AppState) : AppState :=
  {| selectedFile := selectedFile s; treeData := treeData s;
     isLoading := isLoading s; error := e;
     previewUrl := previewUrl s; objectURLs := objectURLs s;
     created := created s; awaiting := awaiting s |}.

(** [setSelectedFile], with the [useMemo] of the render that follows:
    [URL.createObjectURL] for a file, [null] for no file. The URL of the
    file that was selected before is left as it is. *)
Definition setSelectedFile (f : option File) (s : AppState) : AppState :=
  match f with
  | Some file =>
      {| selectedFile := Some file; treeData := treeData s;
         isLoading := isLoading s; error := error s;
         previewUrl := Some (created s);
         objectURLs := created s :: objectURLs s;
         created := S (created s); awaiting := awaiting s |}
  | None =>
      {| selectedFile := None; treeData := treeData s;
         isLoading := isLoading s; error := error s;
         previewUrl := None; objectURLs := objectURLs s;
         created := created s; awaiting := awaiting s |}
  end.

(** [URL.revokeObjectURL] *)
Definition revokeObjectURL (u : ObjectURL) (s : AppState) : AppState :=
  {| selectedFile := selectedFile s; treeData := treeData s;
     isLoading := isLoading s; error := error s;
     previewUrl := previewUrl s;
     objectURLs := filter (fun v => negb (Nat.eqb v u)) (objectURLs s);
     created := created s; awaiting := awaiting s |}.

Definition setAwaiting (l : list File) (s : AppState) : AppState :=
  {| selectedFile := selectedFile s; treeData := treeData s;
     isLoading := isLoading s; error := error s;
     previewUrl := previewUrl s; objectURLs := objectURLs s;
     created := created s; awaiting := l |}.

(** [ImageUploader.handleFileChange], with [onImageSelect] bound to
    [setSelectedFile]; the argument is [event.target.files?.[0]]. *)
Definition handleFileChange (file : option File) (s : AppState) : AppState :=
  match file with
  | Some f => setSelectedFile (Some f) s
  | None => s
  end.

(** [handleIdentify] up to its [await]: the guard, the three setters, the
    call of [identifyTree]. *)
Definition handleIdentify (s : AppState) : AppState :=
  match selectedFile s with
  | None => s
  | Some file =>
      setAwaiting (awaiting s ++ [file])
        (setTreeData JNull (setError None (setIsLoading true s)))
  end.

(** [err.message || 'An unexpected error occurred.']. The only values
    that reach this [catch] are the [Error]s that [identifyTree] throws;
    for a value that is not an [Error] the reading is the one of a value
    without a [message] ([null] and [undefined], on which the read
    itself throws, never arrive). *)
Definition message_or_default (err : JsThrown) : string :=
  match err with
  | JsError message =>
      if JsString.truthy message then message
      else "An unexpected error occurred."
  | JsOther => "An unexpected error occurred."
  end.

(** [handleIdentify] from its [await] on, once [identifyTree] has
    settled: [try], [catch], [finally]. *)
Definition handleIdentify_resume (settled : Promise json) (s : AppState)
  : AppState :=
  match settled with
  | Fulfilled result => setIsLoading false (setTreeData result s)
  | Rejected err =>
      setIsLoading false (setError (Some (message_or_default err)) s)
  | Pending => s
  end.

Definition handleReset (s : AppState) : AppState :=
  let s' :=
    setIsLoading false (setError None (setTreeData JNull
      (setSelectedFile None s))) in
  match previewUrl s with
  | Some u => revokeObjectURL u s'
  | None => s'
  end.

Fixpoint remove_nth {A} (i : nat) (l : list A) : list A :=
  match i, l with
  | _, [] => []
  | O, _ :: rest => rest
  | S i', x :: rest => x :: remove_nth i' rest
  end.

(** What [{treeData && <ResultDisplay data={treeData} />}] puts in the
    display region. For [null], [false] and the empty string nothing is
    drawn; a falsy number is drawn as its text ("0" for zero); a truthy
    value of type [TreeData] gives its card. [IllTyped] stands for the
    element [<ResultDisplay data={v} />] of a truthy [v] that is not of
    type [TreeData]: the declaration of [ResultDisplay] does not cover
    it, and React may draw it or throw while drawing it, which unmounts
    [App]. *)
Inductive Rendered : Type :=
| NoResult
| NumberText (x : spec_float)
| Card (card : ResultCard)
| IllTyped.

(** The JSX that [App] returns, as data: the attributes and the
    conditions of its elements, for a mounted [App]. *)
Record View : Type := mkView {
  identifyDisabled : bool;
  identifyLabel : string;
  resetShown : bool;
  spinner : bool;
  errorBanner : option string;
  resultDisplay : Rendered;
  uploadPrompt : bool;
  preview : option ObjectURL
}.

Definition string_truthy (e : option string) : bool :=
  match e with Some m => JsString.truthy m | None => false end.

Definition is_some {A} (o : option A) : bool :=
  match o with Some _ => true | None => false end.

Definition render (s : AppState) : View :=
  {| identifyDisabled := negb (is_some (selectedFile s)) || isLoading s;
     identifyLabel := if isLoading s then "Identifying..." else "Identify Tree";
     resetShown :=
       is_some (selectedFile s) || Json.truthy (treeData s)
       || string_truthy (error s);
     spinner := isLoading s;
     errorBanner := if string_truthy (error s) then error s else None;
     resultDisplay :=
       if Json.truthy (treeData s) then
         match as_TreeData (treeData s) with
         | Some data => Card (ResultDisplay data)
         | None => IllTyped
         end
       else match treeData s with
            | JNum x => NumberText x
            | _ => NoResult
            end;
     uploadPrompt :=
       negb (isLoading s) && negb (string_truthy (error s))
       && negb (Json.truthy (treeData s)) && negb (is_some (selectedFile s));
     preview := previewUrl s |}.

(** What can happen to the page: the file input changes, a button is
    clicked, or the [i]-th suspended call of [handleIdentify] resumes
    because its [identifyTree] has run against the client behaviour
    [ai]. *)
Inductive Event : Type :=
| FileChange (file : option File)
| ClickIdentify
| ClickReset
| Settle (i : nat) (ai : Client).

Section App.

Variable JSON_parse : string -> ParseResult.

Definition settle (i : nat) (ai : Client) (s : AppState) : AppState :=
  match nth_error (awaiting s) i with
  | None => s
  | Some file =>
      match outcome (identifyTree JSON_parse ai file) with
      | Pending => s
      | settled =>
          handleIdentify_resume settled
            (setAwaiting (remove_nth i (awaiting s)) s)
      end
  end.

Definition handle (e : Event) (s : AppState) : AppState :=
  match e with
  | FileChange file => handleFileChange file s
  | ClickIdentify => handleIdentify s
  | ClickReset => handleReset s
  | Settle i ai => settle i ai s
  end.

(** Whether the page can deliver the event: a disabled button does not
    click, a button that is not drawn neither, and only a suspended
    call resumes. *)
Definition enabled (e : Event) (s : AppState) : bool :=
  match e with
  | FileChange _ => true
  | ClickIdentify => negb (identifyDisabled (render s))
  | ClickReset => resetShown (render s)
  | Settle i _ => Nat.ltb i (length (awaiting s))
  end.

Fixpoint run (trace : list Event) (s : AppState) : AppState :=
  match trace with
  | [] => s
  | e :: rest => run rest (handle e s)
  end.

Fixpoint feasible (trace : list Event) (s : AppState) : bool :=
  match trace with
  | [] => true
  | e :: rest => enabled e s && feasible rest (handle e s)
  end.

(** The states of the page: those that a deliverable sequence of
    events reaches from the first render. *)
Definition reachable (s : AppState) : Prop :=
  exists trace, feasible trace initial = true /\ run trace initial = s.

(** No call of [identifyTree] is begun while another is suspended. *)
Fixpoint sequential (trace : list Event) (s : AppState) : bool :=
  match trace with
  | [] => true
  | e :: rest =>
      match e with
      | ClickIdentify =>
          match selectedFile s, awaiting s with
          | Some _, _ :: _ => false
          | _, _ => true
          end
      | _ => true
      end && sequential rest (handle e s)
  end.

End App.

(** Display states of the page, by the three cells that drive the
    display region. *)
Definition loading_active (s : AppState) : bool := isLoading s.
Definition result_active (s : AppState) : bool := negb (Json.is_null (treeData s)).
Definition error_active (s : AppState) : bool := is_some (error s).

Definition active_count (s : AppState) : nat :=
  (if loading_active s then 1 else 0) + (if result_active s then 1 else 0)
  + (if error_active s then 1 else 0).

(* ===================================================================== *)
(** * Derived notions used by the statements                              *)
(* ===================================================================== *)

(** The part that [fileToGenerativePart] resolves with when the read of
    [file] succeeds. *)
Definition imagePart_of (file : File) : Part :=
  InlineDataPart
    {| data := nth_error (JsString.split "," (dataURL file)) 1;
       mimeType := type file |}.

(** The error that [identifyTree] throws for what its [catch] caught. *)
Definition rethrown (caught : JsThrown) : JsThrown :=
  match caught with
  | JsError message => JsError (identifyTree_prefix ++ message)
  | JsOther => JsError identifyTree_unknown
  end.

(** The state in which [handleIdentify] leaves the page at its [await]
    when [file] is selected. *)
Definition begun (file : File) (s : AppState) : AppState :=
  setAwaiting (awaiting s ++ [file])
    (setTreeData JNull (setError None (setIsLoading true s))).

(** One identification attempt on the page: the click on the button, then
    the resumption of the call that the click began, against [ai]. *)
Definition attempt (JSON_parse : string -> ParseResult) (ai : Client)
  (s : AppState) : AppState :=
  settle JSON_parse (length (awaiting s)) ai (handleIdentify s).

Definition schema_type (s : Schema) : Type_ :=
  match s with mkSchema t _ _ _ _ => t end.
Definition schema_items (s : Schema) : option Schema :=
  match s with mkSchema _ _ i _ _ => i end.
Definition schema_properties (s : Schema) : list (string * Schema) :=
  match s with mkSchema _ _ _ p _ => p end.
Definition schema_required (s : Schema) : list string :=
  match s with mkSchema _ _ _ _ r => r end.

(** A parsed value satisfies a schema: the value has the schema's type,
    the elements of an array satisfy [items], an object has every
    [required] member, and each member that [properties] names satisfies
    its schema. *)
Fixpoint conforms (sch : Schema) (v : json) {struct sch} : bool :=
  match sch with
  | mkSchema ty _ items props req =>
      match ty, v with
      | STRING, JStr _ => true
      | NUMBER, JNum _ | INTEGER, JNum _ => true
      | BOOLEAN, JBool _ => true
      | ARRAY, JArr vs =>
          match items with
          | Some it => forallb (conforms it) vs
          | None => true
          end
      | OBJECT, JObj members =>
          forallb (fun k => is_some (Json.lookup k members)) req
          && forallb
               (fun kv =>
                  match kv with
                  | (k, sub) =>
                      match Json.lookup k members with
                      | Some x => conforms sub x
                      | None => true
                      end
                  end)
               props
      | _, _ => false
      end
  end.

(* ===================================================================== *)
(** * Sample inputs                                                       *)
(* ===================================================================== *)

Module Sample.

(** The eight bytes of the PNG signature. *)
Definition png_bytes : list byte :=
  [x89; x50; x4e; x47; x0d; x0a; x1a; x0a].

Definition oak_png : File :=
  {| name := "oak.png"; type := "image/png"; bytes := png_bytes;
     readable := true |}.

Definition elm_jpeg : File :=
  {| name := "elm.jpg"; type := "image/jpeg";
     bytes := [xff; xd8; xff; xe0]; readable := true |}.

(** A picked file whose read fails (removed from disk after the pick). *)
Definition gone_png : File :=
  {| name := "gone.png"; type := "image/png"; bytes := png_bytes;
     readable := false |}.

(** JSON text written with apostrophes for the quotation marks. *)
Definition json_text (s : string) : string :=
  string_of_list_ascii
    (map (fun c => if Ascii.eqb c "'" then JSON.quote else c)
       (list_ascii_of_string s)).

Definition oak_json : string :=
  json_text
    "{'commonName':'Oak','scientificName':'Quercus robur','description':'...','careTips':['Water weekly','Full sun']}".

Definition oak_value : json :=
  JObj [ ("commonName", JStr "Oak");
         ("scientificName", JStr "Quercus robur");
         ("description", JStr "...");
         ("careTips", JArr [JStr "Water weekly"; JStr "Full sun"]) ].

(** A client that answers with the text, and clients that fail. *)
Definition answers (t : string) : Client :=
  fun _ => Fulfilled {| text := Some t |}.

Definition rejects (e : JsThrown) : Client := fun _ => Rejected e.

Definition network_down : Client := rejects (JsError "network down").

Definition selected (file : File) : AppState :=
  handleFileChange (Some file) initial.

(** A result is on display, then another file is picked. *)
Definition identified : list Event :=
  [FileChange (Some oak_png); ClickIdentify; Settle 0 (answers oak_json)].

(** An attempt is reset while it is in flight, a second attempt is
    begun, the first one fails, the second one succeeds. *)
Definition overlap : list Event :=
  [FileChange (Some oak_png); ClickIdentify; ClickReset;
   FileChange (Some elm_jpeg); ClickIdentify;
   Settle 0 network_down; Settle 0 (answers oak_json)].

(** The same page with one attempt after the other. *)
Definition in_turn : list Event :=
  [FileChange (Some oak_png); ClickIdentify; Settle 0 network_down;
   ClickReset; FileChange (Some elm_jpeg); ClickIdentify;
   Settle 0 (answers oak_json)].

End Sample.

(** The display cells while the page is loading, and the page when no two
    attempts overlap. *)
Definition loading_alone (s : AppState) : Prop :=
  isLoading s = true -> treeData s = JNull /\ error s = None.

Definition one_attempt (s : AppState) : Prop :=
  length (awaiting s) <= 1
  /\ (awaiting s <> [] -> treeData s = JNull /\ error s = None)
  /\ loading_alone s
  /\ (treeData s = JNull \/ error s = None).

(* ===================================================================== *)
(** * Further notions for the page and the client                         *)
(* ===================================================================== *)

(** A page whose stored result is drawn for sure: [null], a falsy value
    or a value of type [TreeData]. *)
Definition drawable (s : AppState) : bool :=
  match resultDisplay (render s) with
  | IllTyped => false
  | _ => true
  end.

(** The fallback of [handleIdentify] for an error without a message. *)
Definition handler_fallback : string := "An unexpected error occurred.".

(** No click on "Start Over" in the sequence. *)
Fixpoint no_reset (trace : list Event) : bool :=
  match trace with
  | [] => true
  | ClickReset :: _ => false
  | _ :: rest => no_reset rest
  end.

(** The object URLs of the page are in order: the live ones are distinct
    and were all created, and the preview is one of them. *)
Definition urls_in_order (s : AppState) : Prop :=
  NoDup (objectURLs s)
  /\ (forall u, In u (objectURLs s) -> u < created s)
  /\ (forall u, previewUrl s = Some u -> In u (objectURLs s))
  /\ is_some (previewUrl s) = is_some (selectedFile s).

(** The page loads only while a call is suspended and a file is
    selected. *)
Definition loading_has_call (s : AppState) : Prop :=
  isLoading s = true -> awaiting s <> [] /\ selectedFile s <> None.

(** The stored error is one that [identifyTree] throws. *)
Definition error_from_client (s : AppState) : Prop :=
  match error s with
  | None => True
  | Some shown =>
      shown = identifyTree_unknown
      \/ exists m, shown = (identifyTree_prefix ++ m)%string
  end.

(** More sample inputs. *)
Module Sample2.

(** U+00A0 and U+FEFF in UTF-8. *)
Definition nbsp : string :=
  String (ascii_of_nat 194) (String (ascii_of_nat 160) EmptyString).
Definition bom : string :=
  String (ascii_of_nat 239)
    (String (ascii_of_nat 187) (String (ascii_of_nat 191) EmptyString)).

(** The oak between a byte order mark, no-break spaces and a line end. *)
Definition padded_oak : string :=
  bom ++ nbsp ++ " " ++ Sample.oak_json ++ nbsp ++ String (ascii_of_nat 10) " ".

(** A response without text (the model returned no candidate). *)
Definition no_text : Client := fun _ => Fulfilled {| text := None |}.

(** A client that never answers. *)
Definition silent : Client := fun _ => Pending.

(** A file whose declared type is not an image type. *)
Definition notes_txt : File :=
  {| name := "notes.txt"; type := "text/plain";
     bytes := ["h"%byte; "i"%byte]; readable := true |}.

(** A file without bytes and without a declared type. *)
Definition empty_file : File :=
  {| name := "empty"; type := ""; bytes := []; readable := true |}.

(** A file whose declared type carries a comma. *)
Definition odd_type : File :=
  {| name := "oak.bin"; type := "image/png,raw";
     bytes := Sample.png_bytes; readable := true |}.

End Sample2.

(** Without "Start Over": either no call is suspended, or one is and the
    page is loading. *)
Definition one_call_or_none (s : AppState) : Prop :=
  awaiting s = [] \/ (isLoading s = true /\ length (awaiting s) = 1).

(** An object URL that is live, was created before, and is not the
    preview. *)
Definition orphan (u : ObjectURL) (s : AppState) : Prop :=
  In u (objectURLs s) /\ u < created s /\ previewUrl s <> Some u.

(** The stored result is drawn for sure on every page of a run. *)
Fixpoint drawn_throughout (JSON_parse : string -> ParseResult)
  (trace : list Event) (s : AppState) : bool :=
  drawable s
  && match trace with
     | [] => true
     | e :: rest => drawn_throughout JSON_parse rest (handle JSON_parse e s)
     end.
(* ===================================================================== *)
(** * Properties                                                          *)
(* ===================================================================== *)

Module Base64Facts.
Import Base64.
Local Open Scope N_scope.

Lemma below_64_cases (P : N -> Prop) :
  (forall k, (k < 64)%nat -> P (N.of_nat k)) -> forall n, n < 64 -> P n.
Proof.
  intros H n Hn. rewrite <- (N2Nat.id n). apply H. lia.
Qed.

Lemma index_of_char_of n : n < 64 -> index_of (char_of n) = Some n.
Proof.
  revert n. apply below_64_cases. intros k Hk.
  do 64 (destruct k as [|k]; [reflexivity|]). lia.
Qed.

Lemma char_of_not_pad n : n < 64 -> Ascii.eqb (char_of n) pad = false.
Proof.
  revert n. apply below_64_cases. intros k Hk.
  do 64 (destruct k as [|k]; [reflexivity|]). lia.
Qed.

Lemma of_to_N b : Byte.of_N (Byte.to_N b) = Some b.
Proof. apply Byte.of_to_N. Qed.

Ltac octets :=
  unfold group24, ungroup24, sextet1, sextet2, sextet3, sextet4,
    octet1, octet2, octet3 in *.

Section Quantum.
Variables a b c : N.
Hypothesis Ha : a < 256.
Hypothesis Hb : b < 256.
Hypothesis Hc : c < 256.

Let n := group24 a b c.

Lemma sextet1_lt : sextet1 n < 64.
Proof. subst n. octets. apply N.Div0.div_lt_upper_bound. lia. Qed.

Lemma sextet2_lt : sextet2 n < 64.
Proof. octets. apply N.mod_lt. lia. Qed.

Lemma sextet3_lt : sextet3 n < 64.
Proof. octets. apply N.mod_lt. lia. Qed.

Lemma sextet4_lt : sextet4 n < 64.
Proof. octets. apply N.mod_lt. lia. Qed.

Lemma regroup :
  ungroup24 (sextet1 n) (sextet2 n) (sextet3 n) (sextet4 n) = n.
Proof.
  octets. generalize n. clear. intros n.
  pose proof (N.div_mod n 64 ltac:(lia)).
  pose proof (N.div_mod (n / 64) 64 ltac:(lia)).
  pose proof (N.div_mod (n / 64 / 64) 64 ltac:(lia)).
  rewrite !N.Div0.div_div in *.
  change (64 * 64) with 4096 in *. change (4096 * 64) with 262144 in *.
  lia.
Qed.

Lemma octet1_group : octet1 n = a.
Proof. subst n. octets. symmetry. apply (N.div_unique _ _ _ (b * 256 + c)); lia. Qed.

Lemma octet3_group : octet3 n = c.
Proof. subst n. octets. symmetry. apply (N.mod_unique _ _ (a * 256 + b)); lia. Qed.

Lemma octet2_group : octet2 n = b.
Proof.
  subst n. octets.
  replace ((a * 65536 + b * 256 + c) / 256) with (a * 256 + b)
    by (apply (N.div_unique _ _ _ c); lia).
  symmetry. apply (N.mod_unique _ _ a); lia.
Qed.
End Quantum.

Lemma sextet4_pad a b : sextet4 (group24 a b 0) = 0.
Proof.
  octets. symmetry. apply (N.mod_unique _ _ (a * 1024 + b * 4)); lia.
Qed.

Lemma sextet3_pad a : sextet3 (group24 a 0 0) = 0.
Proof.
  octets.
  replace ((a * 65536 + 0 * 256 + 0) / 64) with (a * 1024)
    by (apply (N.div_unique _ _ _ 0); lia).
  symmetry. apply (N.mod_unique _ _ (a * 16)); lia.
Qed.

Lemma regroup_pad2 a :
  let n := group24 a 0 0 in ungroup24 (sextet1 n) (sextet2 n) 0 0 = n.
Proof.
  intros n. pose proof (regroup a 0 0) as H. fold n in H.
  subst n. now rewrite sextet3_pad, sextet4_pad in H.
Qed.

Lemma regroup_pad1 a b :
  let n := group24 a b 0 in
  ungroup24 (sextet1 n) (sextet2 n) (sextet3 n) 0 = n.
Proof.
  intros n. pose proof (regroup a b 0) as H. fold n in H.
  subst n. now rewrite sextet4_pad in H.
Qed.

Lemma to_N_lt (b : byte) : Byte.to_N b < 256.
Proof. pose proof (Byte.to_N_bounded b). lia. Qed.

(** Induction over a list of octets, three at a time. *)
Lemma list_ind3 {A} (P : list A -> Prop) :
  P [] -> (forall a, P [a]) -> (forall a b, P [a; b]) ->
  (forall a b c l, P l -> P (a :: b :: c :: l)) ->
  forall l, P l.
Proof.
  intros H0 H1 H2 H3.
  fix IH 1.
  intros [|a [|b [|c l]]];
    [exact H0 | apply H1 | apply H2 | apply H3, IH].
Qed.

Lemma decode_quantum (a b c : byte) (rest : list byte) :
  decode (encode (a :: b :: c :: rest))
  = prepend [Byte.to_N a; Byte.to_N b; Byte.to_N c] (decode (encode rest)).
Proof.
  pose proof (to_N_lt a) as Ha. pose proof (to_N_lt b) as Hb.
  pose proof (to_N_lt c) as Hc.
  cbn [encode decode].
  rewrite !index_of_char_of
    by (apply sextet1_lt || apply sextet2_lt || apply sextet3_lt
        || apply sextet4_lt; assumption).
  rewrite !char_of_not_pad by (apply sextet3_lt || apply sextet4_lt; assumption).
  cbv zeta. rewrite regroup.
  rewrite octet1_group, octet2_group, octet3_group by assumption.
  reflexivity.
Qed.

(** Decoding inverts encoding on every octet sequence. *)
Lemma decode_encode (bs : list byte) : decode (encode bs) = Some bs.
Proof.
  induction bs as [|a|a b|a b c rest IH] using list_ind3.
  - reflexivity.
  - pose proof (to_N_lt a) as Ha.
    cbn [encode decode].
    rewrite !index_of_char_of
      by (apply sextet1_lt || apply sextet2_lt; lia).
    change (pad =? pad)%char with true. cbv iota zeta.
    rewrite regroup_pad2, octet1_group by lia.
    cbn [bytes_of fold_right]. now rewrite of_to_N.
  - pose proof (to_N_lt a) as Ha. pose proof (to_N_lt b) as Hb.
    cbn [encode decode].
    rewrite !index_of_char_of
      by (apply sextet1_lt || apply sextet2_lt || apply sextet3_lt; lia).
    rewrite char_of_not_pad by (apply sextet3_lt; lia).
    change (pad =? pad)%char with true. cbv iota zeta.
    rewrite regroup_pad1, octet1_group, octet2_group by lia.
    cbn [bytes_of fold_right]. now rewrite !of_to_N.
  - rewrite decode_quantum, IH.
    unfold prepend. cbn [bytes_of fold_right]. now rewrite !of_to_N.
Qed.

(** The encoder only emits characters of the alphabet and the pad, so no
    comma occurs in its output. *)
Lemma char_of_not_comma n : Ascii.eqb (char_of n) ","%char = false.
Proof.
  destruct (N.ltb_spec n 64) as [Hn|Hn].
  - revert n Hn. apply below_64_cases. intros k Hk.
    do 64 (destruct k as [|k]; [reflexivity|]). lia.
  - unfold char_of. rewrite nth_overflow; [reflexivity|].
    change (length alphabet) with 64%nat. lia.
Qed.

End Base64Facts.

Example encode_Man :
  Base64.encode ["M"%byte; "a"%byte; "n"%byte] = "TWFu".
Proof. reflexivity. Qed.

Example encode_Ma : Base64.encode ["M"%byte; "a"%byte] = "TWE=".
Proof. reflexivity. Qed.

Example decode_TQ : Base64.decode "TQ==" = Some ["M"%byte].
Proof. reflexivity. Qed.


(* ===================================================================== *)
(** * The encoder                                                         *)
(* ===================================================================== *)

Module SplitFacts.
Import JsString.

Lemma split_without sep s : has sep s = false -> split sep s = [s].
Proof.
  induction s as [|c s IH]; cbn [has split]; intros H; [reflexivity|].
  apply orb_false_iff in H as [Hc Hs].
  rewrite Hc, (IH Hs). reflexivity.
Qed.

Lemma split_at_first sep a b :
  has sep a = false ->
  split sep (a ++ String sep b)%string = a :: split sep b.
Proof.
  induction a as [|c a IH]; cbn [has split append]; intros H.
  - now rewrite Ascii.eqb_refl.
  - apply orb_false_iff in H as [Hc Ha].
    rewrite Hc, (IH Ha). reflexivity.
Qed.

Lemma has_append c a b : has c (a ++ b)%string = has c a || has c b.
Proof.
  induction a as [|d a IH]; cbn [has append]; [reflexivity|].
  now rewrite IH, orb_assoc.
Qed.

Lemma encode_has_no_comma bs : has "," (Base64.encode bs) = false.
Proof.
  induction bs as [|a|a b|a b c rest IH] using Base64Facts.list_ind3;
    cbn [Base64.encode has]; cbv zeta;
    rewrite ?Base64Facts.char_of_not_comma, ?IH; reflexivity.
Qed.

End SplitFacts.

(** The part of a data: URL before its comma, for a file. *)
Lemma dataURL_shape file :
  dataURL file
  = (("data:" ++ mediaType file ++ ";base64")
     ++ String "," (Base64.encode (bytes file)))%string.
Proof.
  unfold dataURL. cbn [append]. do 5 f_equal.
  induction (mediaType file) as [|c t IH]; cbn [append]; [reflexivity|].
  now rewrite IH.
Qed.

Lemma mediaType_no_comma file :
  JsString.has "," (type file) = false ->
  JsString.has "," (mediaType file) = false.
Proof.
  unfold mediaType. destruct (type file); [reflexivity | auto].
Qed.

Lemma dataURL_head_no_comma file :
  JsString.has "," (type file) = false ->
  JsString.has "," ("data:" ++ mediaType file ++ ";base64")%string = false.
Proof.
  intros H. rewrite !SplitFacts.has_append, (mediaType_no_comma file H).
  reflexivity.
Qed.

(** The second segment of the data: URL is the base64 of the bytes. *)
Lemma dataURL_payload file :
  JsString.has "," (type file) = false ->
  nth_error (JsString.split "," (dataURL file)) 1
  = Some (Base64.encode (bytes file)).
Proof.
  intros Ht. rewrite dataURL_shape.
  rewrite SplitFacts.split_at_first by now apply dataURL_head_no_comma.
  rewrite SplitFacts.split_without by apply SplitFacts.encode_has_no_comma.
  reflexivity.
Qed.

(** What the encoder resolves with, for any file that can be read and
    whose type holds no comma. *)
Lemma base64EncodedDataPromise_readable file :
  readable file = true ->
  JsString.has "," (type file) = false ->
  base64EncodedDataPromise file
  = Fulfilled (Some (Base64.encode (bytes file))).
Proof.
  intros Hr Ht. unfold base64EncodedDataPromise, FileReader_result.
  now rewrite Hr, (dataURL_payload file Ht).
Qed.

(** After a failed read nothing settles the encoder's promise. *)
Lemma base64EncodedDataPromise_unreadable file :
  readable file = false -> base64EncodedDataPromise file = Pending.
Proof.
  intros Hr. unfold base64EncodedDataPromise, FileReader_result.
  now rewrite Hr.
Qed.

Lemma image_type_no_comma file :
  is_image file -> JsString.has "," (type file) = false.
Proof. intros [H|H]; rewrite H; reflexivity. Qed.

Lemma fileToGenerativePart_readable file :
  readable file = true ->
  fileToGenerativePart file = ([], Fulfilled (imagePart_of file)).
Proof.
  intros Hr.
  unfold fileToGenerativePart, base64EncodedDataPromise, FileReader_result,
    imagePart_of, await.
  rewrite Hr. reflexivity.
Qed.

Lemma fileToGenerativePart_unreadable file :
  readable file = false -> fileToGenerativePart file = ([], Pending).
Proof.
  intros Hr. unfold fileToGenerativePart.
  rewrite (base64EncodedDataPromise_unreadable file Hr). reflexivity.
Qed.

(** C1: for every PNG or JPEG file whose read succeeds, the encoder
    fulfils with a part whose [data] is the segment of the data: URL after
    its first comma, that segment is the base64 of all the bytes of the
    file, decoding it gives the bytes back, and [mimeType] is the declared
    type of the file. *)
Theorem fileToGenerativePart_base64 (file : File) :
  readable file = true ->
  is_image file ->
  exists head payload : string,
    FileReader_result file = Some (head ++ String "," payload)%string
    /\ JsString.has "," head = false
    /\ payload = Base64.encode (bytes file)
    /\ Base64.decode payload = Some (bytes file)
    /\ outcome (fileToGenerativePart file)
       = Fulfilled
           (InlineDataPart {| data := Some payload; mimeType := type file |}).
Proof.
  intros Hr Hi.
  pose proof (image_type_no_comma file Hi) as Ht.
  exists ("data:" ++ mediaType file ++ ";base64")%string,
         (Base64.encode (bytes file)).
  repeat split.
  - unfold FileReader_result. now rewrite Hr, dataURL_shape.
  - now apply dataURL_head_no_comma.
  - apply Base64Facts.decode_encode.
  - unfold fileToGenerativePart.
    now rewrite (base64EncodedDataPromise_readable file Hr Ht).
Qed.

Lemma fileToGenerativePart_base64_witness :
  exists head payload : string,
    FileReader_result Sample.oak_png = Some (head ++ String "," payload)%string
    /\ JsString.has "," head = false
    /\ payload = Base64.encode (bytes Sample.oak_png)
    /\ Base64.decode payload = Some (bytes Sample.oak_png)
    /\ outcome (fileToGenerativePart Sample.oak_png)
       = Fulfilled
           (InlineDataPart
              {| data := Some payload; mimeType := type Sample.oak_png |}).
Proof.
  exact (fileToGenerativePart_base64 Sample.oak_png eq_refl
           (or_introl eq_refl)).
Defined.

Example oak_png_part :
  outcome (fileToGenerativePart Sample.oak_png)
  = Fulfilled
      (InlineDataPart {| data := Some "iVBORw0KGgo="; mimeType := "image/png" |}).
Proof. reflexivity. Qed.

(* ===================================================================== *)
(** * The identification client                                           *)
(* ===================================================================== *)

Section Client.

Variable JSON_parse : string -> ParseResult.
Variable ai : Client.

Lemma identifyTree_catch_raises (e : JsThrown) :
  identifyTree_catch e = ([], Rejected (rethrown e)) :> Async json.
Proof. destruct e; reflexivity. Qed.

(** The client on a file that cannot be read: no request, no end. *)
Lemma identifyTree_unreadable file :
  readable file = false ->
  identifyTree JSON_parse ai file = ([], Pending).
Proof.
  intros Hr. unfold identifyTree, identifyTree_try.
  rewrite (fileToGenerativePart_unreadable file Hr). reflexivity.
Qed.

(** The [try] block on a file that can be read, by what the client and
    the parser do. *)
Lemma identifyTree_try_readable file :
  readable file = true ->
  identifyTree_try JSON_parse ai file
  = ([request (imagePart_of file)],
     match ai (request (imagePart_of file)) with
     | Fulfilled response =>
         match text response with
         | Some t =>
             match JSON_parse (JsString.trim t) with
             | Parsed v => Fulfilled v
             | SyntaxError m => Rejected (JsError m)
             end
         | None => Rejected undefined_trim
         end
     | Rejected e => Rejected e
     | Pending => Pending
     end).
Proof.
  intros Hr. unfold identifyTree_try.
  rewrite (fileToGenerativePart_readable file Hr).
  unfold generateContent, response_text_trim, parse.
  cbn [bind ret Monad_Async app].
  destruct (ai (request (imagePart_of file))) as [response|e|];
    [|reflexivity|reflexivity].
  destruct (text response) as [t|]; [|reflexivity].
  cbn [bind ret Monad_Async app].
  destruct (JSON_parse (JsString.trim t)); reflexivity.
Qed.

Lemma identifyTree_readable file :
  readable file = true ->
  identifyTree JSON_parse ai file
  = ([request (imagePart_of file)],
     match ai (request (imagePart_of file)) with
     | Fulfilled response =>
         match text response with
         | Some t =>
             match JSON_parse (JsString.trim t) with
             | Parsed v => Fulfilled v
             | SyntaxError m => Rejected (rethrown (JsError m))
             end
         | None => Rejected (rethrown undefined_trim)
         end
     | Rejected e => Rejected (rethrown e)
     | Pending => Pending
     end).
Proof.
  intros Hr. unfold identifyTree.
  rewrite (identifyTree_try_readable file Hr).
  destruct (ai (request (imagePart_of file))) as [response|e|];
    [| destruct e; reflexivity | reflexivity].
  destruct (text response) as [t|]; [|reflexivity].
  destruct (JSON_parse (JsString.trim t)); reflexivity.
Qed.

(** Whatever the [try] block throws is rethrown once, wrapped. *)
Lemma identifyTree_rethrows file e :
  outcome (identifyTree_try JSON_parse ai file) = Rejected e ->
  identifyTree JSON_parse ai file
  = (issued (identifyTree_try JSON_parse ai file), Rejected (rethrown e)).
Proof.
  unfold identifyTree, outcome, issued.
  destruct (identifyTree_try JSON_parse ai file) as [log p].
  cbn [fst snd]. intros ->. cbn [catch Exc_Async].
  rewrite identifyTree_catch_raises. now rewrite app_nil_r.
Qed.

(** What the [try] block does not throw is the result of the client. *)
Lemma identifyTree_passes file :
  (forall e, outcome (identifyTree_try JSON_parse ai file) <> Rejected e) ->
  identifyTree JSON_parse ai file = identifyTree_try JSON_parse ai file.
Proof.
  unfold identifyTree, outcome.
  destruct (identifyTree_try JSON_parse ai file) as [log [v|e|]];
    cbn [snd catch Exc_Async]; intros H; try reflexivity.
  now destruct (H e).
Qed.

(** The client never rejects with anything but an [Error] whose message
    is not empty. *)
Lemma identifyTree_rejects_with_message file e :
  outcome (identifyTree JSON_parse ai file) = Rejected e ->
  exists m, e = JsError m /\ JsString.truthy m = true.
Proof.
  unfold identifyTree, outcome.
  destruct (identifyTree_try JSON_parse ai file) as [log [v|c|]];
    cbn [snd catch Exc_Async]; try discriminate.
  rewrite identifyTree_catch_raises. cbn [snd].
  intros [= <-]. destruct c as [m|]; eexists; split; reflexivity.
Qed.

End Client.

(* ===================================================================== *)
(** * The page                                                            *)
(* ===================================================================== *)

Lemma remove_nth_last {A} (l : list A) (x : A) :
  remove_nth (length l) (l ++ [x]) = l.
Proof. induction l as [|y l IH]; cbn; [reflexivity | now rewrite IH]. Qed.

Lemma nth_error_last {A} (l : list A) (x : A) :
  nth_error (l ++ [x]) (length l) = Some x.
Proof. induction l as [|y l IH]; cbn; [reflexivity | exact IH]. Qed.

Lemma remove_nth_length {A} (i : nat) (l : list A) (x : A) :
  nth_error l i = Some x -> S (length (remove_nth i l)) = length l.
Proof.
  revert i. induction l as [|y l IH]; intros [|i]; cbn; try discriminate.
  - reflexivity.
  - intros H. now rewrite (IH i H).
Qed.

Section Page.

Variable JSON_parse : string -> ParseResult.

Lemma handleIdentify_selected s file :
  selectedFile s = Some file -> handleIdentify s = begun file s.
Proof. unfold handleIdentify, begun. now intros ->. Qed.

(** An attempt, by how the client ends for the selected file. *)
Lemma attempt_outcome ai s file :
  selectedFile s = Some file ->
  attempt JSON_parse ai s
  = match outcome (identifyTree JSON_parse ai file) with
    | Pending => begun file s
    | settled =>
        handleIdentify_resume settled
          (setAwaiting (awaiting s)
             (setTreeData JNull (setError None (setIsLoading true s))))
    end.
Proof.
  intros Hs. unfold attempt, settle.
  rewrite (handleIdentify_selected s file Hs).
  unfold begun at 1. cbn [awaiting setAwaiting].
  rewrite nth_error_last.
  destruct (outcome (identifyTree JSON_parse ai file)) as [v|e|];
    [| | reflexivity];
    unfold begun; cbn [awaiting setAwaiting]; rewrite remove_nth_last;
    reflexivity.
Qed.

End Page.

Section Invariants.

Variable JSON_parse : string -> ParseResult.

Ltac handlers :=
  unfold handle, handleFileChange, handleIdentify, handleReset, settle,
    handleIdentify_resume.

Lemma handle_loading_alone e s :
  loading_alone s -> loading_alone (handle JSON_parse e s).
Proof.
  unfold loading_alone. intros Inv. destruct e as [[f|]| | |i ai]; handlers.
  - exact Inv.
  - exact Inv.
  - destruct (selectedFile s); [cbn; auto | exact Inv].
  - destruct (previewUrl s); cbn; discriminate.
  - destruct (nth_error (awaiting s) i) as [file|]; [|exact Inv].
    destruct (outcome (identifyTree JSON_parse ai file));
      [cbn; discriminate | cbn; discriminate | exact Inv].
Qed.

Lemma run_loading_alone trace s :
  loading_alone s -> loading_alone (run JSON_parse trace s).
Proof.
  revert s. induction trace as [|e trace IH]; intros s Inv; cbn [run].
  - exact Inv.
  - apply IH, handle_loading_alone, Inv.
Qed.

Lemma initial_loading_alone : loading_alone initial.
Proof. unfold loading_alone. cbn. discriminate. Qed.

Lemma settle_one_attempt i ai s :
  one_attempt s -> one_attempt (settle JSON_parse i ai s).
Proof.
  intros Inv. unfold settle.
  destruct (nth_error (awaiting s) i) as [file|] eqn:Hi; [|exact Inv].
  destruct Inv as (Hlen & Hnull & Hload & Hex).
  pose proof (remove_nth_length i (awaiting s) file Hi) as Hrm.
  assert (Hne : awaiting s <> []) by (intros E; rewrite E in Hrm; cbn in Hrm; lia).
  destruct (Hnull Hne) as [Ht He].
  assert (Hempty : remove_nth i (awaiting s) = []).
  { destruct (remove_nth i (awaiting s)); [reflexivity | cbn in Hrm; lia]. }
  destruct (outcome (identifyTree JSON_parse ai file)) as [v|e|];
    unfold one_attempt, loading_alone, handleIdentify_resume; cbn.
  - rewrite Hempty, He. cbn.
    repeat split; try lia; try tauto; try discriminate.
  - rewrite Hempty, Ht. cbn.
    repeat split; try lia; try tauto; try discriminate.
  - repeat split; auto.
Qed.

Lemma handle_one_attempt e s :
  sequential JSON_parse [e] s = true ->
  one_attempt s -> one_attempt (handle JSON_parse e s).
Proof.
  intros Hseq Inv. destruct e as [[f|]| | |i ai].
  - destruct Inv as (Hlen & Hnull & Hload & Hex).
    unfold one_attempt, loading_alone. cbn. repeat split; auto;
      try (apply Hnull; assumption); try (apply Hload; assumption).
  - exact Inv.
  - cbn in Hseq. cbn [handle]. unfold handleIdentify.
    destruct (selectedFile s) as [file|]; [|exact Inv].
    destruct (awaiting s) as [|x l] eqn:Ha; [|discriminate].
    unfold one_attempt, loading_alone. cbn. rewrite ?Ha. cbn.
    repeat split; auto.
  - destruct Inv as (Hlen & Hnull & Hload & Hex).
    cbn [handle]. unfold handleReset, one_attempt, loading_alone.
    destruct (previewUrl s); cbn; repeat split; auto; discriminate.
  - apply settle_one_attempt, Inv.
Qed.

Lemma run_one_attempt trace s :
  sequential JSON_parse trace s = true ->
  one_attempt s -> one_attempt (run JSON_parse trace s).
Proof.
  revert s. induction trace as [|e trace IH]; intros s Hseq Inv; cbn [run].
  - exact Inv.
  - cbn [sequential] in Hseq. apply andb_prop in Hseq as [He Hrest].
    apply IH; [exact Hrest|].
    apply handle_one_attempt; [|exact Inv].
    cbn [sequential]. now rewrite He.
Qed.

Lemma initial_one_attempt : one_attempt initial.
Proof.
  unfold one_attempt, loading_alone. cbn.
  repeat split; auto; try discriminate; try (intros H; now destruct H).
Qed.

Lemma one_attempt_exclusive s : one_attempt s -> active_count s <= 1.
Proof.
  intros (_ & _ & Hload & Hex).
  unfold active_count, loading_active, result_active, error_active.
  unfold loading_alone in Hload.
  destruct (isLoading s).
  - destruct (Hload eq_refl) as [-> ->]. cbn. lia.
  - destruct Hex as [-> | ->]; cbn.
    + destruct (error s); cbn; lia.
    + destruct (Json.is_null (treeData s)); cbn; lia.
Qed.

End Invariants.

(* ===================================================================== *)
(** * The claims about the page                                           *)
(* ===================================================================== *)

(** C2, as stated, fails: a file picked while a result is on display
    leaves the result where it is. The page below has identified the
    oak; picking the elm keeps the oak's data in [treeData]. *)
Lemma file_selection_keeps_result :
  ~ (forall (s : AppState) (f : File),
        reachable JSON.parse s ->
        let s' := handle JSON.parse (FileChange (Some f)) s in
        selectedFile s' = Some f /\ treeData s' = JNull /\ error s' = None).
Proof.
  intros H.
  specialize (H (run JSON.parse Sample.identified initial) Sample.elm_jpeg).
  assert (R : reachable JSON.parse (run JSON.parse Sample.identified initial)).
  { exists Sample.identified. split; [vm_compute|]; reflexivity. }
  destruct (H R) as (_ & Hnull & _).
  vm_compute in Hnull. discriminate Hnull.
Qed.

(** C2, amended: selecting a file, from any state of the page, stores the
    file as the selected file, with its preview, and leaves the
    loading flag, the stored result, the stored error and the suspended
    calls as they were; the result and the error are cleared by the next
    identification attempt and by reset. *)
Theorem file_selection_sets_file_only (s : AppState) (f : File) :
let s' := handleFileChange (Some f) s in
selectedFile s' = Some f
/\ treeData s' = treeData s
/\ error s' = error s
/\ isLoading s' = isLoading s
/\ awaiting s' = awaiting s
/\ previewUrl s' = Some (created s)
/\ (treeData (handleIdentify s') = JNull /\ error (handleIdentify s') = None)
/\ (treeData (handleReset s') = JNull /\ error (handleReset s') = None).
Proof.
cbn. repeat split; reflexivity.
Qed.

(** C5, as stated, fails: reset does not cancel the call in flight, so a
    second attempt can overlap the first; when the first fails and the
    second succeeds the page holds an error and a result together. *)
Lemma overlapping_attempts_leave_result_and_error :
  ~ (forall s : AppState, reachable JSON.parse s -> active_count s <= 1).
Proof.
  intros H.
  assert (R : reachable JSON.parse (run JSON.parse Sample.overlap initial)).
  { exists Sample.overlap. split; [vm_compute|]; reflexivity. }
  specialize (H _ R). vm_compute in H. lia.
Qed.

(** C5, amended: after every handler, in every state that any sequence of
    events reaches, a true loading flag excludes a result and an error;
    and when no attempt is begun while another is in flight, at most one
    of loading, result and error is active. *)
Theorem display_state_exclusive
  (JSON_parse : string -> ParseResult) (trace : list Event) :
  let s := run JSON_parse trace initial in
  (isLoading s = true -> treeData s = JNull /\ error s = None)
  /\ (sequential JSON_parse trace initial = true -> active_count s <= 1).
Proof.
  cbv zeta. split.
  - apply (run_loading_alone JSON_parse trace initial initial_loading_alone).
  - intros Hseq. apply one_attempt_exclusive.
    apply run_one_attempt; [exact Hseq | exact initial_one_attempt].
Qed.

Lemma display_state_exclusive_witness :
  active_count (run JSON.parse Sample.in_turn initial) <= 1.
Proof.
  exact (proj2 (display_state_exclusive JSON.parse Sample.in_turn) eq_refl).
Defined.

(** C6: reset, from any state, sets the selected file, the result and the
    error to null and the loading flag to false, revokes the object URL
    of the preview when there is one, and leaves the identify button
    disabled. *)
Theorem handleReset_clears (s : AppState) :
let s' := handleReset s in
selectedFile s' = None
/\ treeData s' = JNull
/\ error s' = None
/\ isLoading s' = false
/\ previewUrl s' = None
/\ (forall u, previewUrl s = Some u -> ~ In u (objectURLs s'))
/\ identifyDisabled (render s') = true.
Proof.
unfold handleReset.
destruct (previewUrl s) as [u|] eqn:Hu; cbn; repeat split;
  try discriminate.
intros v [= <-] Hin. apply filter_In in Hin as [_ Hneq].
now rewrite Nat.eqb_refl in Hneq.
Qed.

Lemma handleReset_clears_witness :
previewUrl (Sample.selected Sample.oak_png) = Some 0
/\ In 0 (objectURLs (Sample.selected Sample.oak_png))
/\ ~ In 0 (objectURLs (handleReset (Sample.selected Sample.oak_png))).
Proof.
split; [reflexivity|]. split; [now left|].
exact (proj1 (proj2 (proj2 (proj2 (proj2 (proj2
         (handleReset_clears (Sample.selected Sample.oak_png)))))))
         0 eq_refl).
Defined.

(** C7: in every state the identify button is disabled exactly when no
    file is selected or the loading flag is true. *)
Theorem identify_disabled_iff (s : AppState) :
  identifyDisabled (render s) = true
  <-> (selectedFile s = None \/ isLoading s = true).
Proof.
  cbn. destruct (selectedFile s), (isLoading s); cbn; split; auto;
    try discriminate; intros [H|H]; discriminate.
Qed.

(** C10: [handleIdentify] with no file selected returns at once: the
    state of the page is what it was, and no call of [identifyTree] is
    begun, so the client is not invoked. *)
Theorem handleIdentify_without_file (s : AppState) :
selectedFile s = None ->
handleIdentify s = s
/\ awaiting (handleIdentify s) = awaiting s
/\ (forall JSON_parse, handle JSON_parse ClickIdentify s = s).
Proof.
intros Hs. cbn [handle]. unfold handleIdentify. rewrite Hs. auto.
Qed.

Lemma handleIdentify_without_file_witness :
handleIdentify initial = initial
/\ awaiting (handleIdentify initial) = awaiting initial
/\ (forall JSON_parse, handle JSON_parse ClickIdentify initial = initial).
Proof.
exact (handleIdentify_without_file initial eq_refl).
Defined.

(* ===================================================================== *)
(** * The claims about the client                                         *)
(* ===================================================================== *)

(** C3: whatever the [try] block of [identifyTree] throws, a rejection of
    the client or a failure while the response is read and parsed, is
    caught once and rethrown: an [Error] with the template and the
    original message when the caught value is an [Error], an [Error]
    with the fixed fallback message otherwise. A client that rejects with
    "network down" leaves the page in the error state, its banner showing
    a message that contains "network down". *)
Theorem identifyTree_error_policy (JSON_parse : string -> ParseResult) :
  (forall ai file e,
      outcome (identifyTree_try JSON_parse ai file) = Rejected e ->
      outcome (identifyTree JSON_parse ai file)
      = Rejected
          (match e with
           | JsError message =>
               JsError
                 ("Failed to identify the tree. The model responded with an error: "
                  ++ message)
           | JsOther =>
               JsError
                 "An unknown error occurred while identifying the tree. Please try again."
           end))
  /\ (forall ai file e,
         readable file = true ->
         ai (request (imagePart_of file)) = Rejected e ->
         outcome (identifyTree_try JSON_parse ai file) = Rejected e)
  /\ (forall ai file t m,
         readable file = true ->
         ai (request (imagePart_of file)) = Fulfilled {| text := Some t |} ->
         JSON_parse (JsString.trim t) = SyntaxError m ->
         outcome (identifyTree_try JSON_parse ai file) = Rejected (JsError m))
  /\ (forall ai file s,
         selectedFile s = Some file ->
         readable file = true ->
         ai (request (imagePart_of file)) = Rejected (JsError "network down") ->
         let s' := attempt JSON_parse ai s in
         exists shown,
           error s' = Some shown
           /\ errorBanner (render s') = Some shown
           /\ shown = (identifyTree_prefix ++ "network down")%string
           /\ JsString.includes "network down" shown = true
           /\ isLoading s' = false
           /\ treeData s' = JNull
           /\ spinner (render s') = false
           /\ resultDisplay (render s') = NoResult).
Proof.
  repeat split.
  - intros ai file e H.
    rewrite (identifyTree_rethrows JSON_parse ai file e H).
    destruct e; reflexivity.
  - intros ai file e Hr Ha.
    rewrite (identifyTree_try_readable JSON_parse ai file Hr), Ha.
    reflexivity.
  - intros ai file t m Hr Ha Hp.
    rewrite (identifyTree_try_readable JSON_parse ai file Hr), Ha.
    cbn [outcome snd text]. now rewrite Hp.
  - intros ai file s Hs Hr Ha.
    exists (identifyTree_prefix ++ "network down")%string.
    cbv zeta.
    rewrite (attempt_outcome JSON_parse ai s file Hs).
    rewrite (identifyTree_readable JSON_parse ai file Hr), Ha.
    cbn. repeat split; reflexivity.
Qed.

Lemma identifyTree_error_policy_witness :
  exists shown,
    error (attempt JSON.parse Sample.network_down
             (Sample.selected Sample.oak_png)) = Some shown
    /\ errorBanner
         (render (attempt JSON.parse Sample.network_down
                    (Sample.selected Sample.oak_png))) = Some shown
    /\ shown = (identifyTree_prefix ++ "network down")%string
    /\ JsString.includes "network down" shown = true
    /\ isLoading (attempt JSON.parse Sample.network_down
                    (Sample.selected Sample.oak_png)) = false
    /\ treeData (attempt JSON.parse Sample.network_down
                   (Sample.selected Sample.oak_png)) = JNull
    /\ spinner (render (attempt JSON.parse Sample.network_down
                          (Sample.selected Sample.oak_png))) = false
    /\ resultDisplay
         (render (attempt JSON.parse Sample.network_down
                    (Sample.selected Sample.oak_png))) = NoResult.
Proof.
  exact (proj2 (proj2 (proj2 (identifyTree_error_policy JSON.parse)))
           Sample.network_down Sample.oak_png
           (Sample.selected Sample.oak_png) eq_refl eq_refl eq_refl).
Defined.

Example network_down_message :
  error (attempt JSON.parse Sample.network_down (Sample.selected Sample.oak_png))
  = Some
      "Failed to identify the tree. The model responded with an error: network down".
Proof. reflexivity. Qed.

Example non_error_rejection_message :
  error (attempt JSON.parse (Sample.rejects JsOther)
           (Sample.selected Sample.oak_png))
  = Some "An unknown error occurred while identifying the tree. Please try again.".
Proof. reflexivity. Qed.

(** C4, at a file whose read fails: the reader's result is null, the
    encoder's promise is never settled, so neither is the promise of
    [identifyTree]; nothing is rejected, and the page that began the
    attempt stays loading with no error. *)
Theorem failed_read_never_settles
  (JSON_parse : string -> ParseResult) (ai : Client) :
  FileReader_result Sample.gone_png = None
  /\ outcome (fileToGenerativePart Sample.gone_png) = Pending
  /\ outcome (identifyTree JSON_parse ai Sample.gone_png) = Pending
  /\ (let s := attempt JSON_parse ai (Sample.selected Sample.gone_png) in
      isLoading s = true /\ error s = None
      /\ awaiting s = [Sample.gone_png]).
Proof.
  pose proof (identifyTree_unreadable JSON_parse ai Sample.gone_png eq_refl)
    as Hpending.
  assert (Hs : attempt JSON_parse ai (Sample.selected Sample.gone_png)
               = begun Sample.gone_png (Sample.selected Sample.gone_png)).
  { rewrite (attempt_outcome JSON_parse ai
               (Sample.selected Sample.gone_png) Sample.gone_png eq_refl).
    now rewrite Hpending. }
  split; [reflexivity|]. split; [reflexivity|].
  split; [now rewrite Hpending|].
  cbv zeta. rewrite Hs. repeat split.
Qed.

(** C9, as stated, fails: an invocation on a file whose read fails never
    reaches the call of the client and issues no request. *)
Lemma failed_read_issues_no_request :
  ~ (forall (JSON_parse : string -> ParseResult) (ai : Client) (file : File),
        exists r, issued (identifyTree JSON_parse ai file) = [r]).
Proof.
  intros H.
  destruct (H JSON.parse Sample.network_down Sample.gone_png) as [r Hr].
  discriminate Hr.
Qed.

(** C9, amended: no invocation issues more than one request, and every
    invocation whose file read succeeds issues exactly one: it names the
    model, carries one content of two parts, the encoded image (inline
    data and MIME type) and then the instruction text, and asks for JSON
    that matches the schema of three required string fields and an
    array-of-strings [careTips]. *)
Theorem identifyTree_single_request
  (JSON_parse : string -> ParseResult) (ai : Client) (file : File) :
  length (issued (identifyTree JSON_parse ai file)) <= 1
  /\ (readable file = true ->
      exists imagePart : Part,
        outcome (fileToGenerativePart file) = Fulfilled imagePart
        /\ imagePart
           = InlineDataPart
               {| data := nth_error (JsString.split "," (dataURL file)) 1;
                  mimeType := type file |}
        /\ (is_image file ->
            imagePart
            = InlineDataPart
                {| data := Some (Base64.encode (bytes file));
                   mimeType := type file |})
        /\ issued (identifyTree JSON_parse ai file) = [request imagePart]
        /\ model (request imagePart) = "gemini-2.5-flash"
        /\ contents (request imagePart)
           = [ {| parts :=
                    [imagePart; TextPart "Identify the tree in this image."] |} ]
        /\ responseMimeType (config (request imagePart)) = "application/json"
        /\ (let sch := responseSchema (config (request imagePart)) in
            schema_type sch = OBJECT
            /\ map (fun kv =>
                      (fst kv, schema_type (snd kv),
                       option_map schema_type (schema_items (snd kv))))
                 (schema_properties sch)
               = [ ("commonName", STRING, None);
                   ("scientificName", STRING, None);
                   ("description", STRING, None);
                   ("careTips", ARRAY, Some STRING) ]
            /\ schema_required sch
               = ["commonName"; "scientificName"; "description"])).
Proof.
  split.
  - destruct (readable file) eqn:Hr.
    + rewrite (identifyTree_readable JSON_parse ai file Hr). cbn. lia.
    + rewrite (identifyTree_unreadable JSON_parse ai file Hr). cbn. lia.
  - intros Hr. exists (imagePart_of file).
    rewrite (fileToGenerativePart_readable file Hr).
    rewrite (identifyTree_readable JSON_parse ai file Hr).
    repeat split.
    intros Hi. pose proof (image_type_no_comma file Hi) as Ht.
    unfold imagePart_of. now rewrite (dataURL_payload file Ht).
Qed.

Lemma identifyTree_single_request_witness :
  exists imagePart : Part,
    outcome (fileToGenerativePart Sample.oak_png) = Fulfilled imagePart
    /\ imagePart
       = InlineDataPart
           {| data := Some "iVBORw0KGgo="; mimeType := "image/png" |}
    /\ issued (identifyTree JSON.parse Sample.network_down Sample.oak_png)
       = [request imagePart].
Proof.
  destruct (proj2 (identifyTree_single_request JSON.parse Sample.network_down
                     Sample.oak_png) eq_refl)
    as (part & Hpart & Hshape & _ & Hissued & _).
  exists part. repeat split; [exact Hpart | exact Hshape | exact Hissued].
Defined.

(* ===================================================================== *)
(** * Trimming                                                            *)
(* ===================================================================== *)

Module TrimFacts.
Import JsString.
Local Open Scope N_scope.

(** Induction on a text by its length. *)
Lemma length_ind (P : string -> Prop) :
  (forall s, (forall r, (String.length r < String.length s)%nat -> P r) -> P s) ->
  forall s, P s.
Proof.
  intros H s. remember (String.length s) as n eqn:Hn.
  revert s Hn. induction n as [n IH] using lt_wf_ind.
  intros s ->. apply H. intros r Hr. now apply (IH (String.length r)).
Qed.

Lemma is_space_small c : is_space c = true -> N_of_ascii c < 128.
Proof.
  destruct c as [[] [] [] [] [] [] [] []]; cbn; intros H;
    try discriminate H; lia.
Qed.

Lemma is_space2_spec c d :
  is_space2 c d = true -> N_of_ascii c = 194 /\ N_of_ascii d = 160.
Proof.
  unfold is_space2. rewrite andb_true_iff, !N.eqb_eq. tauto.
Qed.

Lemma is_space3_spec c d e :
  is_space3 c d e = true ->
  194 <= N_of_ascii c
  /\ 128 <= N_of_ascii d <= 191 /\ 128 <= N_of_ascii e <= 191.
Proof.
  unfold is_space3. cbv zeta.
  repeat (rewrite orb_true_iff || rewrite andb_true_iff).
  rewrite !N.eqb_eq, !N.leb_le. lia.
Qed.

Lemma lead_not_second c d : lead d -> is_space2 c d = false.
Proof.
  intros Hd. destruct (is_space2 c d) eqn:H; [|reflexivity].
  apply is_space2_spec in H. destruct Hd as [Hd|Hd];
    [apply is_space_small in Hd|]; lia.
Qed.

Lemma lead_not_middle c d e : lead d -> is_space3 c d e = false.
Proof.
  intros Hd. destruct (is_space3 c d e) eqn:H; [|reflexivity].
  apply is_space3_spec in H. destruct Hd as [Hd|Hd];
    [apply is_space_small in Hd|]; lia.
Qed.

Lemma lead_not_last c d e : lead e -> is_space3 c d e = false.
Proof.
  intros He. destruct (is_space3 c d e) eqn:H; [|reflexivity].
  apply is_space3_spec in H. destruct He as [He|He];
    [apply is_space_small in He|]; lia.
Qed.

Lemma trimStart_skip s :
  trimStart s
  = match skip_space s with Some r => trimStart r | None => s end.
Proof.
  destruct s as [|c [|d [|e r]]]; cbn [trimStart skip_space];
    try reflexivity;
    destruct (is_space c); try reflexivity;
    destruct (is_space2 c d); try reflexivity;
    destruct (is_space3 c d e); reflexivity.
Qed.

Lemma blank_skip c s :
  blank (String c s)
  = match skip_space (String c s) with
    | Some r => blank r
    | None => false
    end.
Proof.
  destruct s as [|d [|e r]]; cbn [blank skip_space];
    destruct (is_space c); try reflexivity;
    destruct (is_space2 c d); try reflexivity;
    destruct (is_space3 c d e); reflexivity.
Qed.

Lemma skip_shorter s r :
  skip_space s = Some r -> (String.length r < String.length s)%nat.
Proof.
  destruct s as [|c [|d [|e r2]]]; cbn [skip_space]; try discriminate;
    destruct (is_space c); try discriminate;
    try (intros H; injection H as <-; cbn; lia);
    destruct (is_space2 c d); try discriminate;
    try (intros H; injection H as <-; cbn; lia);
    destruct (is_space3 c d e); try discriminate;
    intros H; injection H as <-; cbn; lia.
Qed.

Lemma skip_lead c s r : skip_space (String c s) = Some r -> lead c.
Proof.
  unfold lead. cbn [skip_space]. destruct (is_space c); [now left|].
  destruct s as [|d [|e r2]]; try discriminate.
  - destruct (is_space2 c d) eqn:H; [|discriminate].
    apply is_space2_spec in H. intros _. right. lia.
  - destruct (is_space2 c d) eqn:H.
    + apply is_space2_spec in H. intros _. right. lia.
    + destruct (is_space3 c d e) eqn:H3; [|discriminate].
      apply is_space3_spec in H3. intros _. right. lia.
Qed.

Lemma blank_leads w : blank w = true -> leads w.
Proof.
  destruct w as [|d r]; [exact (fun _ => I)|].
  rewrite blank_skip. destruct (skip_space (String d r)) as [r'|] eqn:H;
    [|discriminate].
  intros _. exact (skip_lead d r r' H).
Qed.

Lemma skip_app_some y r w :
  skip_space y = Some r -> skip_space (y ++ w)%string = Some (r ++ w)%string.
Proof.
  destruct y as [|c [|d [|e r2]]]; cbn [skip_space append];
    try discriminate;
    destruct (is_space c); try discriminate;
    try (intros H; injection H as <-; reflexivity);
    destruct (is_space2 c d); try discriminate;
    try (intros H; injection H as <-; reflexivity);
    destruct (is_space3 c d e); try discriminate;
    intros H; injection H as <-; reflexivity.
Qed.

Lemma skip_app_none y w :
  y <> EmptyString -> skip_space y = None -> leads w ->
  skip_space (y ++ w)%string = None.
Proof.
  intros Hy Hs Hw.
  destruct y as [|c [|d [|e r2]]]; [now destruct Hy | | |];
    cbn [skip_space append] in *;
    destruct (is_space c); try discriminate Hs.
  - destruct w as [|d [|e r2]]; [reflexivity | |]; cbn [leads] in Hw;
      rewrite (lead_not_second c d Hw); [reflexivity|].
    now rewrite (lead_not_middle c d e Hw).
  - destruct (is_space2 c d); [discriminate Hs|].
    destruct w as [|e r2]; [reflexivity|]. cbn [leads] in Hw.
    now rewrite (lead_not_last c d e Hw).
  - destruct (is_space2 c d); [discriminate Hs|].
    destruct (is_space3 c d e); [discriminate Hs | reflexivity].
Qed.

Lemma blank_app y w : blank w = true -> blank (y ++ w)%string = blank y.
Proof.
  intros Hw. induction y as [y IH] using length_ind.
  destruct y as [|c y']; [exact Hw|].
  change (String c y' ++ w)%string with (String c (y' ++ w)).
  rewrite !blank_skip.
  change (String c (y' ++ w)) with (String c y' ++ w)%string.
  destruct (skip_space (String c y')) as [r|] eqn:Hs.
  - rewrite (skip_app_some _ r w Hs). apply IH. now apply skip_shorter.
  - rewrite (skip_app_none (String c y') w); auto; [discriminate|].
    now apply blank_leads.
Qed.

Lemma trimStart_blank w : blank w = true -> trimStart w = EmptyString.
Proof.
  induction w as [w IH] using length_ind. destruct w as [|c w'];
    [reflexivity|].
  rewrite blank_skip, trimStart_skip.
  destruct (skip_space (String c w')) as [r|] eqn:Hs; [|discriminate].
  intros Hr. apply IH; [now apply skip_shorter | exact Hr].
Qed.

Lemma trimStart_lead w x :
  blank w = true -> trimStart (w ++ x)%string = trimStart x.
Proof.
  induction w as [w IH] using length_ind. destruct w as [|c w'];
    [reflexivity|].
  rewrite blank_skip.
  destruct (skip_space (String c w')) as [r|] eqn:Hs; [|discriminate].
  intros Hr. rewrite trimStart_skip, (skip_app_some _ r x Hs).
  apply IH; [now apply skip_shorter | exact Hr].
Qed.

Lemma trimEnd_blank w : blank w = true -> trimEnd w = EmptyString.
Proof. destruct w as [|c w]; [reflexivity|]. cbn [trimEnd]. now intros ->. Qed.

Lemma trimEnd_trail y w :
  blank w = true -> trimEnd (y ++ w)%string = trimEnd y.
Proof.
  intros Hw. induction y as [|c y IH]; [now apply trimEnd_blank|].
  change (String c y ++ w)%string with (String c (y ++ w)).
  cbn [trimEnd]. rewrite IH.
  change (String c (y ++ w)) with (String c y ++ w)%string.
  now rewrite (blank_app (String c y) w Hw).
Qed.

Lemma trim_trail t w : blank w = true -> trim (t ++ w)%string = trim t.
Proof.
  intros Hw. unfold trim. induction t as [t IH] using length_ind.
  destruct t as [|c t'].
  - cbn [append]. now rewrite (trimStart_blank w Hw).
  - rewrite (trimStart_skip (String c t' ++ w)), (trimStart_skip (String c t')).
    destruct (skip_space (String c t')) as [r|] eqn:Hs.
    + rewrite (skip_app_some _ r w Hs). apply IH. now apply skip_shorter.
    + rewrite (skip_app_none (String c t') w); auto;
        [| discriminate | now apply blank_leads].
      now apply trimEnd_trail.
Qed.

Lemma trim_surrounded w1 s w2 :
  blank w1 = true -> blank w2 = true ->
  trim (w1 ++ s ++ w2)%string = trim s.
Proof.
  intros H1 H2. rewrite <- (trim_trail s w2 H2). unfold trim.
  now rewrite (trimStart_lead w1 _ H1).
Qed.

End TrimFacts.

(* ===================================================================== *)
(** * Parsing the response                                                *)
(* ===================================================================== *)

Lemma indexed_in_order {A} (l : list A) (i : nat) :
  map snd (indexed i l) = l /\ map fst (indexed i l) = seq i (length l).
Proof.
  revert i. induction l as [|x l IH]; intros i; cbn; [auto|].
  destruct (IH (S i)) as [-> ->]. auto.
Qed.

Lemma conforms_strings (vs : list json) :
  forallb (conforms (mkSchema STRING None None [] [])) vs = true ->
  exists tips, vs = map JStr tips /\ as_strings vs = Some tips.
Proof.
  induction vs as [|v vs IH]; cbn [forallb]; intros H.
  - now exists [].
  - apply andb_prop in H as [Hv Hvs].
    destruct (IH Hvs) as (tips & -> & Htips).
    destruct v as [| | |s| |]; try discriminate Hv.
    exists (s :: tips). cbn [map as_strings as_string]. now rewrite Htips.
Qed.

(** A value that satisfies the declared schema has type [TreeData], with
    the fields of the record equal to the members of the value. *)
Lemma conforms_treeSchema (v : json) :
conforms treeSchema v = true ->
exists c sn d tips,
Json.prop "commonName" v = Some (JStr c)
/\ Json.prop "scientificName" v = Some (JStr sn)
/\ Json.prop "description" v = Some (JStr d)
/\ Json.prop "careTips" v
= option_map (fun ts => JArr (map JStr ts)) tips
/\ as_TreeData v = Some (mkTreeData c sn d tips)
/\ Json.truthy v = true.
Proof.
destruct v as [| | | | |members]; try discriminate.
unfold treeSchema, as_TreeData, Json.prop. cbn [conforms forallb].
intros H. rewrite !andb_true_iff in H.
destruct H as ((H1 & H2 & H3 & _) & (P1 & P2 & P3 & P4 & _)).
destruct (Json.lookup "commonName" members) as [[| | |c| |]|];
  try discriminate.
destruct (Json.lookup "scientificName" members) as [[| | |sn| |]|];
  try discriminate.
destruct (Json.lookup "description" members) as [[| | |d| |]|];
  try discriminate.
destruct (Json.lookup "careTips" members) as [[| | | |tips|]|];
  try discriminate.
- cbn in P4. destruct (conforms_strings tips P4) as (ts & -> & Hts).
  exists c, sn, d, (Some ts). rewrite Hts. repeat split.
- exists c, sn, d, None. repeat split.
Qed.

(** C8: [identifyTree] parses the text of the response after trimming
    it: of a response whose text is [t] between white space (of any
    kind that [trim] removes) it parses the trimmed [t]. When that is not
    well-formed JSON the call fails with the rethrown parse error and the
    page goes to the error state: it stops loading, stores no result and
    shows a message that is not empty. When it is well-formed the call
    returns the parsed value and the page stores it and stops loading
    without an error; when that value satisfies the schema, the page
    draws the result card with the three strings of the value and, one
    item for each care tip, the tips in their order. *)
Theorem identifyTree_parses_trimmed_text
  (JSON_parse : string -> ParseResult) (ai : Client) (file : File)
  (s : AppState) (w1 t w2 : string) :
  selectedFile s = Some file ->
  readable file = true ->
  JsString.blank w1 = true ->
  JsString.blank w2 = true ->
  ai (request (imagePart_of file))
  = Fulfilled {| text := Some (w1 ++ t ++ w2)%string |} ->
  let s' := attempt JSON_parse ai s in
  match JSON_parse (JsString.trim t) with
  | SyntaxError m =>
      outcome (identifyTree JSON_parse ai file)
      = Rejected (JsError (identifyTree_prefix ++ m))
      /\ error s' = Some (identifyTree_prefix ++ m)%string
      /\ errorBanner (render s') = Some (identifyTree_prefix ++ m)%string
      /\ JsString.truthy (identifyTree_prefix ++ m) = true
      /\ isLoading s' = false
      /\ treeData s' = JNull
      /\ resultDisplay (render s') = NoResult
  | Parsed v =>
      outcome (identifyTree JSON_parse ai file) = Fulfilled v
      /\ treeData s' = v
      /\ error s' = None
      /\ isLoading s' = false
      /\ (conforms treeSchema v = true ->
          exists c sn d tips card,
            Json.prop "commonName" v = Some (JStr c)
            /\ Json.prop "scientificName" v = Some (JStr sn)
            /\ Json.prop "description" v = Some (JStr d)
            /\ Json.prop "careTips" v
               = option_map (fun ts => JArr (map JStr ts)) tips
            /\ spinner (render s') = false
            /\ errorBanner (render s') = None
            /\ uploadPrompt (render s') = false
            /\ resultDisplay (render s') = Card card
            /\ heading card = c
            /\ subheading card = sn
            /\ paragraph card = d
            /\ match tips with
               | Some (tip :: rest) =>
                   exists items,
                     careTipsList card = Some items
                     /\ map snd items = tip :: rest
                     /\ map fst items = seq 0 (length (tip :: rest))
               | _ => careTipsList card = None
               end)
  end.
Proof.
  intros Hs Hr H1 H2 Ha. cbv zeta.
  rewrite (attempt_outcome JSON_parse ai s file Hs).
  rewrite (identifyTree_readable JSON_parse ai file Hr), Ha.
  cbn [text outcome snd].
  rewrite (TrimFacts.trim_surrounded w1 t w2 H1 H2).
  destruct (JSON_parse (JsString.trim t)) as [v|m].
  - split; [reflexivity|]. split; [reflexivity|]. split; [reflexivity|].
    split; [reflexivity|].
    intros Hc.
    destruct (conforms_treeSchema v Hc)
      as (c & sn & d & tips & Hc1 & Hc2 & Hc3 & Hc4 & Hdata & Htruthy).
    exists c, sn, d, tips, (ResultDisplay (mkTreeData c sn d tips)).
    split; [exact Hc1|]. split; [exact Hc2|]. split; [exact Hc3|].
    split; [exact Hc4|].
    split; [reflexivity|]. split; [reflexivity|].
    split; [cbn; now rewrite Htruthy|].
    split; [cbn; now rewrite Htruthy, Hdata|].
    split; [reflexivity|]. split; [reflexivity|]. split; [reflexivity|].
    destruct tips as [[|tip rest]|]; [reflexivity | | reflexivity].
    exists (indexed 0 (tip :: rest)). split; [reflexivity|].
    exact (indexed_in_order (tip :: rest) 0).
  - cbn. repeat split.
Qed.

Lemma identifyTree_parses_trimmed_text_witness :
  (outcome (identifyTree JSON.parse (Sample.answers Sample2.padded_oak)
              Sample.oak_png) = Fulfilled Sample.oak_value
   /\ treeData (attempt JSON.parse (Sample.answers Sample2.padded_oak)
                  (Sample.selected Sample.oak_png)) = Sample.oak_value
   /\ error (attempt JSON.parse (Sample.answers Sample2.padded_oak)
               (Sample.selected Sample.oak_png)) = None
   /\ isLoading (attempt JSON.parse (Sample.answers Sample2.padded_oak)
                   (Sample.selected Sample.oak_png)) = false
   /\ resultDisplay
        (render (attempt JSON.parse (Sample.answers Sample2.padded_oak)
                   (Sample.selected Sample.oak_png)))
      = Card
          {| heading := "Oak"; subheading := "Quercus robur";
             paragraph := "...";
             careTipsList := Some [(0, "Water weekly"); (1, "Full sun")] |})
  /\ (error (attempt JSON.parse
               (Sample.answers (Sample2.nbsp ++ " " ++ Sample2.bom))
               (Sample.selected Sample.oak_png))
      = Some (identifyTree_prefix ++ "Unexpected end of JSON input")%string
      /\ isLoading (attempt JSON.parse
                      (Sample.answers (Sample2.nbsp ++ " " ++ Sample2.bom))
                      (Sample.selected Sample.oak_png)) = false
      /\ treeData (attempt JSON.parse
                     (Sample.answers (Sample2.nbsp ++ " " ++ Sample2.bom))
                     (Sample.selected Sample.oak_png)) = JNull).
Proof.
  split.
  - pose proof (identifyTree_parses_trimmed_text JSON.parse
                  (Sample.answers Sample2.padded_oak) Sample.oak_png
                  (Sample.selected Sample.oak_png)
                  (Sample2.bom ++ Sample2.nbsp ++ " ") Sample.oak_json
                  (Sample2.nbsp ++ String (ascii_of_nat 10) " ")
                  eq_refl eq_refl eq_refl eq_refl eq_refl) as H.
    cbv zeta in H.
    change (JSON.parse (JsString.trim Sample.oak_json))
      with (Parsed Sample.oak_value) in H.
    destruct H as (Ho & Ht & He & Hl & Hcard).
    split; [exact Ho|]. split; [exact Ht|]. split; [exact He|].
    split; [exact Hl|].
    destruct (Hcard eq_refl)
      as (c & sn & d & tips & [h sh p ct]
          & Hc & Hsn & Hd & Htips & _ & _ & _ & -> & Hh & Hsh & Hp
          & Hitems).
    cbn [heading subheading paragraph careTipsList] in Hh, Hsh, Hp, Hitems.
    injection Hc as <-. injection Hsn as <-. injection Hd as <-.
    subst h sh p.
    destruct tips as [[|a [|b [|x rest]]]|]; try discriminate Htips.
    injection Htips as <- <-.
    destruct Hitems as (items & -> & Hsnd & Hfst).
    destruct items as [|[i x] [|[j y] [|z rest]]];
      try discriminate Hsnd.
    cbn in Hsnd, Hfst.
    injection Hsnd as <- <-. injection Hfst as <- <-. reflexivity.
  - pose proof (identifyTree_parses_trimmed_text JSON.parse
                  (Sample.answers (Sample2.nbsp ++ " " ++ Sample2.bom))
                  Sample.oak_png (Sample.selected Sample.oak_png)
                  (Sample2.nbsp ++ " " ++ Sample2.bom) "" ""
                  eq_refl eq_refl eq_refl eq_refl eq_refl) as H.
    cbv zeta in H.
    change (JSON.parse (JsString.trim ""))
      with (SyntaxError "Unexpected end of JSON input") in H.
    destruct H as (_ & He & _ & _ & Hl & Ht & _).
    split; [exact He|]. split; [exact Hl | exact Ht].
Defined.

(** The example of the specification: the oak, between a byte order
    mark, no-break spaces and a line end in the response, on the page. *)
Example oak_on_the_page :
  resultDisplay
    (render (attempt JSON.parse
               (Sample.answers Sample2.padded_oak)
               (Sample.selected Sample.oak_png)))
  = Card
      {| heading := "Oak"; subheading := "Quercus robur"; paragraph := "...";
         careTipsList := Some [(0, "Water weekly"); (1, "Full sun")] |}.
Proof. vm_compute. reflexivity. Qed.

Example oak_conforms : conforms treeSchema Sample.oak_value = true.
Proof. reflexivity. Qed.

Example parse_oak : JSON.parse Sample.oak_json = Parsed Sample.oak_value.
Proof. vm_compute. reflexivity. Qed.

(* ===================================================================== *)
(** * More on the client                                                  *)
(* ===================================================================== *)

(** X1: [identifyTree] fulfils with a value exactly when the file was
    read, the client answered with a response that carries text, and
    [JSON.parse] accepted the trimmed text; the value is then the parsed
    one, as it is: nothing checks it against the schema. White space of
    any kind around the text does not count: what [JSON.parse] accepts
    of the text between it is what the call returns. *)
Theorem identifyTree_fulfils_iff
  (JSON_parse : string -> ParseResult) (ai : Client) (file : File)
  (v : json) :
  (outcome (identifyTree JSON_parse ai file) = Fulfilled v
   <-> (readable file = true
        /\ exists t,
             ai (request (imagePart_of file))
             = Fulfilled {| text := Some t |}
             /\ JSON_parse (JsString.trim t) = Parsed v))
  /\ (forall w1 t w2,
        JsString.blank w1 = true ->
        JsString.blank w2 = true ->
        readable file = true ->
        ai (request (imagePart_of file))
        = Fulfilled {| text := Some (w1 ++ t ++ w2)%string |} ->
        JSON_parse (JsString.trim t) = Parsed v ->
        outcome (identifyTree JSON_parse ai file) = Fulfilled v).
Proof.
  split.
  - destruct (readable file) eqn:Hr.
    + rewrite (identifyTree_readable JSON_parse ai file Hr).
      cbn [outcome snd].
      destruct (ai (request (imagePart_of file))) as [[[t|]]|e|];
        cbn [text].
      * destruct (JSON_parse (JsString.trim t)) as [w|m] eqn:Hp; split.
        -- intros H. injection H as H. subst w.
           split; [reflexivity|]. exists t. split; [reflexivity | exact Hp].
        -- intros (_ & t' & Ht & Hv). injection Ht as Ht. subst t'.
           rewrite Hp in Hv. injection Hv as Hv. now subst w.
        -- discriminate.
        -- intros (_ & t' & Ht & Hv). injection Ht as Ht. subst t'.
           rewrite Hp in Hv. discriminate.
      * split; [discriminate | intros (_ & t & Ht & _); discriminate].
      * split;
          [destruct e; discriminate | intros (_ & t & Ht & _); discriminate].
      * split; [discriminate | intros (_ & t & Ht & _); discriminate].
    + rewrite (identifyTree_unreadable JSON_parse ai file Hr). cbn.
      split; [discriminate | intros (H & _); discriminate].
  - intros w1 t w2 H1 H2 Hr Ha Hp.
    rewrite (identifyTree_readable JSON_parse ai file Hr), Ha.
    cbn [text outcome snd].
    now rewrite (TrimFacts.trim_surrounded w1 t w2 H1 H2), Hp.
Qed.

Lemma identifyTree_fulfils_iff_witness :
  outcome (identifyTree JSON.parse (Sample.answers Sample2.padded_oak)
             Sample.oak_png)
  = Fulfilled Sample.oak_value
  /\ exists t,
       Sample.answers Sample2.padded_oak (request (imagePart_of Sample.oak_png))
       = Fulfilled {| text := Some t |}
       /\ JSON.parse (JsString.trim t) = Parsed Sample.oak_value.
Proof.
  pose proof (identifyTree_fulfils_iff JSON.parse
                (Sample.answers Sample2.padded_oak) Sample.oak_png
                Sample.oak_value) as [Hiff Hpad].
  assert (Ho : outcome (identifyTree JSON.parse
                          (Sample.answers Sample2.padded_oak)
                          Sample.oak_png)
               = Fulfilled Sample.oak_value).
  { apply (Hpad (Sample2.bom ++ Sample2.nbsp ++ " ")%string Sample.oak_json
                (Sample2.nbsp ++ String (ascii_of_nat 10) " ")%string);
      reflexivity. }
  split; [exact Ho|].
  exact (proj2 (proj1 Hiff Ho)).
Defined.

(** X2: [identifyTree] never settles exactly when the read of the file
    fails or the client never answers; in every other case the call
    ends, with a value or with an error. *)
Theorem identifyTree_pending_iff
  (JSON_parse : string -> ParseResult) (ai : Client) (file : File) :
  outcome (identifyTree JSON_parse ai file) = Pending
  <-> (readable file = false
       \/ ai (request (imagePart_of file)) = Pending).
Proof.
  destruct (readable file) eqn:Hr.
  - rewrite (identifyTree_readable JSON_parse ai file Hr). cbn [outcome snd].
    destruct (ai (request (imagePart_of file))) as [[[t|]]|e|];
      cbn [text].
    + destruct (JSON_parse (JsString.trim t)); split;
        try discriminate; intros [H|H]; discriminate.
    + split; [discriminate | intros [H|H]; discriminate].
    + split; [destruct e; discriminate | intros [H|H]; discriminate].
    + split; auto.
  - rewrite (identifyTree_unreadable JSON_parse ai file Hr). cbn.
    split; auto.
Qed.
(** X3: white space around the text of the response is of no
    consequence: two clients whose answers differ only by leading and
    trailing white space, of any kind that [trim] removes (spaces, line
    ends, no-break spaces, byte order marks, ...), give [identifyTree]
    the same end, whatever [JSON.parse] does. *)
Theorem identifyTree_ignores_surrounding_space
  (JSON_parse : string -> ParseResult) (ai ai' : Client) (file : File)
  (w1 t w2 : string) :
  JsString.blank w1 = true ->
  JsString.blank w2 = true ->
  ai (request (imagePart_of file)) = Fulfilled {| text := Some t |} ->
  ai' (request (imagePart_of file))
  = Fulfilled {| text := Some (w1 ++ t ++ w2)%string |} ->
  identifyTree JSON_parse ai' file = identifyTree JSON_parse ai file.
Proof.
  intros H1 H2 Ha Ha'. destruct (readable file) eqn:Hr.
  - rewrite !(identifyTree_readable JSON_parse _ file Hr), Ha, Ha'.
    cbn [text]. now rewrite (TrimFacts.trim_surrounded w1 t w2 H1 H2).
  - now rewrite !(identifyTree_unreadable JSON_parse _ file Hr).
Qed.

Lemma identifyTree_ignores_surrounding_space_witness :
  identifyTree JSON.parse (Sample.answers Sample2.padded_oak) Sample.oak_png
  = identifyTree JSON.parse (Sample.answers Sample.oak_json) Sample.oak_png.
Proof.
  exact (identifyTree_ignores_surrounding_space JSON.parse
           (Sample.answers Sample.oak_json)
           (Sample.answers Sample2.padded_oak) Sample.oak_png
           (Sample2.bom ++ Sample2.nbsp ++ " ") Sample.oak_json
           (Sample2.nbsp ++ String (ascii_of_nat 10) " ")
           eq_refl eq_refl eq_refl eq_refl).
Defined.

(** X4: a response that carries no text makes the call fail, not return:
    reading [text] for [trim] throws inside the [try] block, the [catch]
    clause rethrows it under the template, one request has been issued,
    and the page that made the attempt shows that error and stops
    loading. *)
Theorem identifyTree_response_without_text
  (JSON_parse : string -> ParseResult) (ai : Client) (file : File)
  (s : AppState) :
  selectedFile s = Some file ->
  readable file = true ->
  ai (request (imagePart_of file)) = Fulfilled {| text := None |} ->
  exists m,
    identifyTree JSON_parse ai file
    = ([request (imagePart_of file)],
       Rejected (JsError (identifyTree_prefix ++ m)))
    /\ error (attempt JSON_parse ai s) = Some (identifyTree_prefix ++ m)%string
    /\ isLoading (attempt JSON_parse ai s) = false
    /\ treeData (attempt JSON_parse ai s) = JNull.
Proof.
  intros Hs Hr Ha.
  exists "Cannot read properties of undefined (reading 'trim')".
  rewrite (attempt_outcome JSON_parse ai s file Hs).
  rewrite (identifyTree_readable JSON_parse ai file Hr), Ha.
  cbn. repeat split.
Qed.

Lemma identifyTree_response_without_text_witness :
  exists m,
    identifyTree JSON.parse Sample2.no_text Sample.oak_png
    = ([request (imagePart_of Sample.oak_png)],
       Rejected (JsError (identifyTree_prefix ++ m)))
    /\ error (attempt JSON.parse Sample2.no_text
                (Sample.selected Sample.oak_png))
       = Some (identifyTree_prefix ++ m)%string
    /\ isLoading (attempt JSON.parse Sample2.no_text
                    (Sample.selected Sample.oak_png)) = false
    /\ treeData (attempt JSON.parse Sample2.no_text
                   (Sample.selected Sample.oak_png)) = JNull.
Proof.
  exact (identifyTree_response_without_text JSON.parse Sample2.no_text
           Sample.oak_png (Sample.selected Sample.oak_png)
           eq_refl eq_refl eq_refl).
Defined.

(* ===================================================================== *)
(** * What every sequence of events keeps                                 *)
(* ===================================================================== *)

Lemma identifyTree_rejection_is_rethrown
  (JSON_parse : string -> ParseResult) (ai : Client) (file : File)
  (e : JsThrown) :
  outcome (identifyTree JSON_parse ai file) = Rejected e ->
  exists caught, e = rethrown caught.
Proof.
  unfold identifyTree, outcome.
  destruct (identifyTree_try JSON_parse ai file) as [log [v|c|]];
    cbn [snd catch Exc_Async]; try discriminate.
  rewrite identifyTree_catch_raises. cbn [snd].
  intros H. injection H as H. now exists c.
Qed.

Lemma message_of_rethrown (caught : JsThrown) :
  message_or_default (rethrown caught) = identifyTree_unknown
  \/ exists m, message_or_default (rethrown caught)
               = (identifyTree_prefix ++ m)%string.
Proof.
  destruct caught as [m|]; [right; exists m | left]; reflexivity.
Qed.

Lemma prefixed_is_shown (m : string) :
  JsString.truthy (identifyTree_prefix ++ m) = true
  /\ (identifyTree_prefix ++ m)%string <> handler_fallback.
Proof. split; [reflexivity | discriminate]. Qed.

Section Kept.

Variable JSON_parse : string -> ParseResult.

Lemma handle_error_from_client e s :
  error_from_client s -> error_from_client (handle JSON_parse e s).
Proof.
  unfold error_from_client. intros Inv.
  destruct e as [[f|]| | |i ai]; cbn [handle].
  - exact Inv.
  - exact Inv.
  - unfold handleIdentify. destruct (selectedFile s); [exact I | exact Inv].
  - unfold handleReset. destruct (previewUrl s); exact I.
  - unfold settle.
    destruct (nth_error (awaiting s) i) as [file|]; [|exact Inv].
    destruct (outcome (identifyTree JSON_parse ai file)) as [v|r|] eqn:Ho;
      [exact Inv | | exact Inv].
    destruct (identifyTree_rejection_is_rethrown JSON_parse ai file r Ho)
      as [caught ->].
    cbn [handleIdentify_resume error setIsLoading setError].
    apply message_of_rethrown.
Qed.

Lemma run_error_from_client trace s :
  error_from_client s -> error_from_client (run JSON_parse trace s).
Proof.
  revert s. induction trace as [|e trace IH]; intros s Inv; cbn [run].
  - exact Inv.
  - apply IH, handle_error_from_client, Inv.
Qed.

Lemma handle_loading_has_call e s :
  loading_has_call s -> loading_has_call (handle JSON_parse e s).
Proof.
  unfold loading_has_call. intros Inv.
  destruct e as [[f|]| | |i ai]; cbn [handle].
  - cbn. intros H. destruct (Inv H) as [Ha _]. split; [exact Ha | easy].
  - exact Inv.
  - unfold handleIdentify. destruct (selectedFile s) as [file|] eqn:Hs;
      [|rewrite Hs; exact Inv].
    cbn. intros _. split; [|rewrite Hs; easy].
    intros E. now apply app_eq_nil in E as [_ E].
  - unfold handleReset. destruct (previewUrl s); cbn; discriminate.
  - unfold settle.
    destruct (nth_error (awaiting s) i) as [file|]; [|exact Inv].
    destruct (outcome (identifyTree JSON_parse ai file));
      [cbn; discriminate | cbn; discriminate | exact Inv].
Qed.

Lemma run_loading_has_call trace s :
  loading_has_call s -> loading_has_call (run JSON_parse trace s).
Proof.
  revert s. induction trace as [|e trace IH]; intros s Inv; cbn [run].
  - exact Inv.
  - apply IH, handle_loading_has_call, Inv.
Qed.

Lemma handle_urls_in_order e s :
  urls_in_order s -> urls_in_order (handle JSON_parse e s).
Proof.
  unfold urls_in_order. intros (Hnd & Hlt & Hpv & Hsel).
  destruct e as [[f|]| | |i ai]; cbn [handle].
  - cbn. repeat split.
    + constructor; [|exact Hnd]. intros Hin. apply Hlt in Hin. lia.
    + intros u [<-|Hin]; [lia|]. apply Hlt in Hin. lia.
    + intros u H. injection H as <-. now left.
  - cbn. auto.
  - unfold handleIdentify. destruct (selectedFile s) eqn:Hs; cbn;
      rewrite ?Hs; auto.
  - unfold handleReset. destruct (previewUrl s) as [p|]; cbn.
    + repeat split; try discriminate.
      * now apply NoDup_filter.
      * intros u Hin. apply filter_In in Hin as [Hin _]. now apply Hlt.
    + repeat split; auto; discriminate.
  - unfold settle.
    destruct (nth_error (awaiting s) i) as [file|]; [|auto].
    destruct (outcome (identifyTree JSON_parse ai file)); cbn; auto.
Qed.

Lemma run_urls_in_order trace s :
  urls_in_order s -> urls_in_order (run JSON_parse trace s).
Proof.
  revert s. induction trace as [|e trace IH]; intros s Inv; cbn [run].
  - exact Inv.
  - apply IH, handle_urls_in_order, Inv.
Qed.

End Kept.

Lemma initial_urls_in_order : urls_in_order initial.
Proof.
  unfold urls_in_order. cbn. repeat split; try discriminate.
  - constructor.
  - intros u [].
Qed.

(** X5: on every page that any sequence of events reaches, a stored
    error is one of the two messages that [identifyTree] throws: the
    template followed by the caught message, or the fixed message for a
    value that is not an [Error]. It is never empty, it is never the
    fallback of [handleIdentify], and the banner shows it. *)
Theorem stored_error_comes_from_client
  (JSON_parse : string -> ParseResult) (trace : list Event) :
  let s := run JSON_parse trace initial in
  match error s with
  | None => errorBanner (render s) = None
  | Some shown =>
      (shown = identifyTree_unknown
       \/ exists m, shown = (identifyTree_prefix ++ m)%string)
      /\ JsString.truthy shown = true
      /\ shown <> handler_fallback
      /\ errorBanner (render s) = Some shown
  end.
Proof.
  cbv zeta.
  pose proof (run_error_from_client JSON_parse trace initial I) as Inv.
  unfold error_from_client in Inv. unfold render. cbn [errorBanner].
  destruct (error (run JSON_parse trace initial)) as [shown|];
    [|reflexivity].
  split; [exact Inv|].
  destruct Inv as [-> | [m ->]].
  - repeat split. discriminate.
  - destruct (prefixed_is_shown m) as [Ht Hf]. repeat split; assumption.
Qed.

(** X6: on every page that any sequence of events reaches, a true
    loading flag means that a call of [identifyTree] is suspended and
    that a file is selected: the spinner never turns without a call. *)
Theorem loading_means_call_in_flight
  (JSON_parse : string -> ParseResult) (trace : list Event) :
  isLoading (run JSON_parse trace initial) = true ->
  awaiting (run JSON_parse trace initial) <> []
  /\ selectedFile (run JSON_parse trace initial) <> None.
Proof.
  apply (run_loading_has_call JSON_parse trace initial).
  unfold loading_has_call. cbn. discriminate.
Qed.

Lemma loading_means_call_in_flight_witness :
  awaiting (run JSON.parse [FileChange (Some Sample.oak_png); ClickIdentify]
              initial) <> []
  /\ selectedFile
       (run JSON.parse [FileChange (Some Sample.oak_png); ClickIdentify]
          initial) <> None.
Proof.
  exact (loading_means_call_in_flight JSON.parse
           [FileChange (Some Sample.oak_png); ClickIdentify] eq_refl).
Defined.

(** X7: on every page that any sequence of events reaches, a preview is
    there exactly when a file is selected, the URL of the preview has
    not been revoked, and the live object URLs are distinct. *)
Theorem preview_url_is_live
  (JSON_parse : string -> ParseResult) (trace : list Event) :
  let s := run JSON_parse trace initial in
  is_some (previewUrl s) = is_some (selectedFile s)
  /\ match previewUrl s with
     | Some u => In u (objectURLs s)
     | None => True
     end
  /\ NoDup (objectURLs s).
Proof.
  cbv zeta.
  destruct (run_urls_in_order JSON_parse trace initial initial_urls_in_order)
    as (Hnd & _ & Hpv & Hsel).
  repeat split; [exact Hsel | | exact Hnd].
  destruct (previewUrl (run JSON_parse trace initial)); auto.
Qed.

(** X8: on every page that a sequence of events reaches, with every
    stored result on the way one that is drawn for sure, the upload
    prompt is drawn exactly when the "Start Over" button is not. *)
Theorem prompt_iff_no_start_over
  (JSON_parse : string -> ParseResult) (trace : list Event) :
  drawn_throughout JSON_parse trace initial = true ->
  let s := run JSON_parse trace initial in
  uploadPrompt (render s) = negb (resetShown (render s)).
Proof.
  intros _. cbv zeta.
  assert (Inv : loading_has_call (run JSON_parse trace initial)).
  { apply run_loading_has_call. unfold loading_has_call. cbn. discriminate. }
  unfold loading_has_call in Inv. unfold render.
  cbn [uploadPrompt resetShown].
  destruct (isLoading (run JSON_parse trace initial)).
  - destruct (Inv eq_refl) as [_ Hs].
    destruct (selectedFile (run JSON_parse trace initial)); [|now destruct Hs].
    reflexivity.
  - destruct (selectedFile (run JSON_parse trace initial)),
      (Json.truthy (treeData (run JSON_parse trace initial))),
      (string_truthy (error (run JSON_parse trace initial))); reflexivity.
Qed.

Lemma prompt_iff_no_start_over_witness :
  drawn_throughout JSON.parse Sample.overlap initial = true
  /\ uploadPrompt (render (run JSON.parse Sample.overlap initial))
     = negb (resetShown (render (run JSON.parse Sample.overlap initial))).
Proof.
  split; [vm_compute; reflexivity|].
  exact (prompt_iff_no_start_over JSON.parse Sample.overlap eq_refl).
Defined.

Section Orphans.

Variable JSON_parse : string -> ParseResult.

Lemma handle_orphan u e s : orphan u s -> orphan u (handle JSON_parse e s).
Proof.
  unfold orphan. intros (Hin & Hlt & Hpv).
  destruct e as [[f|]| | |i ai]; cbn [handle].
  - cbn. repeat split; [now right | lia |].
    intros H. injection H as H. lia.
  - cbn. auto.
  - unfold handleIdentify. destruct (selectedFile s); cbn; auto.
  - unfold handleReset. destruct (previewUrl s) as [p|] eqn:Hp; cbn.
    + repeat split; [|exact Hlt | discriminate].
      apply filter_In. split; [exact Hin|].
      apply negb_true_iff, Nat.eqb_neq. intros E. apply Hpv. now rewrite E.
    + repeat split; [exact Hin | exact Hlt | discriminate].
  - unfold settle.
    destruct (nth_error (awaiting s) i) as [file|]; [|auto].
    destruct (outcome (identifyTree JSON_parse ai file)); cbn; auto.
Qed.

Lemma run_orphan u trace s : orphan u s -> orphan u (run JSON_parse trace s).
Proof.
  revert s. induction trace as [|e trace IH]; intros s Inv; cbn [run].
  - exact Inv.
  - apply IH, handle_orphan, Inv.
Qed.

End Orphans.

(** X9: the object URL of a preview that another selection has replaced
    is never revoked: when a file is picked while one is selected, the
    URL made for the earlier one stays live through every sequence of
    events that follows, resets included. *)
Theorem replaced_preview_url_is_never_revoked
  (JSON_parse : string -> ParseResult) (s : AppState) (g : File)
  (u : ObjectURL) (trace : list Event) :
  previewUrl s = Some u ->
  In u (objectURLs s) ->
  u < created s ->
  In u (objectURLs (run JSON_parse trace (handleFileChange (Some g) s))).
Proof.
  intros Hp Hin Hlt.
  apply (run_orphan JSON_parse u trace (handleFileChange (Some g) s)).
  unfold orphan. cbn. repeat split; [now right | lia |].
  intros H. injection H as H. lia.
Qed.

Lemma replaced_preview_url_is_never_revoked_witness :
  In 0 (objectURLs
          (run JSON.parse [ClickReset; FileChange (Some Sample.oak_png); ClickReset]
             (handleFileChange (Some Sample.elm_jpeg)
                (Sample.selected Sample.oak_png)))).
Proof.
  exact (replaced_preview_url_is_never_revoked JSON.parse
           (Sample.selected Sample.oak_png) Sample.elm_jpeg 0
           [ClickReset; FileChange (Some Sample.oak_png); ClickReset]
           eq_refl (or_introl eq_refl) (le_n 1)).
Defined.

Section WithoutReset.

Variable JSON_parse : string -> ParseResult.

Lemma handle_one_call_or_none e s :
  enabled e s = true -> no_reset [e] = true ->
  one_call_or_none s -> one_call_or_none (handle JSON_parse e s).
Proof.
  unfold one_call_or_none. intros He Hn Inv.
  destruct e as [[f|]| | |i ai]; cbn [handle]; try discriminate Hn.
  - exact Inv.
  - exact Inv.
  - cbn in He. unfold handleIdentify.
    destruct (selectedFile s) as [file|]; [|exact Inv].
    destruct (isLoading s) eqn:Hl; [discriminate He|].
    destruct Inv as [Ha | [Hl' _]]; [|discriminate Hl'].
    right. cbn. rewrite Ha. auto.
  - unfold settle.
    destruct (nth_error (awaiting s) i) as [file|] eqn:Hi; [|exact Inv].
    destruct (outcome (identifyTree JSON_parse ai file));
      [ | | exact Inv]; left; cbn;
      destruct Inv as [Ha | [_ Hlen]];
      try (rewrite Ha in Hi; destruct i; discriminate Hi);
      pose proof (remove_nth_length i (awaiting s) file Hi) as Hrm;
      destruct (remove_nth i (awaiting s)); try reflexivity;
      cbn in Hrm; lia.
Qed.

Lemma run_one_call_or_none trace s :
  feasible JSON_parse trace s = true -> no_reset trace = true ->
  one_call_or_none s -> one_call_or_none (run JSON_parse trace s).
Proof.
  revert s. induction trace as [|e trace IH]; intros s Hf Hn Inv;
    cbn [run]; [exact Inv|].
  cbn [feasible] in Hf. apply andb_prop in Hf as [He Hf].
  assert (Hn' : no_reset [e] = true /\ no_reset trace = true).
  { destruct e; cbn in Hn |- *; auto. discriminate. }
  destruct Hn' as [Hn1 Hn2].
  apply IH; [exact Hf | exact Hn2 |].
  now apply handle_one_call_or_none.
Qed.

End WithoutReset.

(** X10: as long as "Start Over" is not clicked, the disabled button
    keeps the calls apart: on every page that a deliverable sequence of
    events without a reset reaches, at most one call of [identifyTree]
    is suspended, and when one is the page is loading. *)
Theorem one_call_at_a_time_without_reset
  (JSON_parse : string -> ParseResult) (trace : list Event) :
  feasible JSON_parse trace initial = true ->
  no_reset trace = true ->
  length (awaiting (run JSON_parse trace initial)) <= 1
  /\ (awaiting (run JSON_parse trace initial) <> [] ->
      isLoading (run JSON_parse trace initial) = true).
Proof.
  intros Hf Hn.
  destruct (run_one_call_or_none JSON_parse trace initial Hf Hn
              (or_introl eq_refl)) as [Ha | [Hl Hlen]].
  - rewrite Ha. cbn. split; [lia | intros H; now destruct H].
  - rewrite Hlen. split; [lia | intros _; exact Hl].
Qed.

Lemma one_call_at_a_time_without_reset_witness :
  length (awaiting (run JSON.parse
                      [FileChange (Some Sample.oak_png); ClickIdentify;
                       FileChange (Some Sample.elm_jpeg)] initial)) <= 1
  /\ (awaiting (run JSON.parse
                  [FileChange (Some Sample.oak_png); ClickIdentify;
                   FileChange (Some Sample.elm_jpeg)] initial) <> [] ->
      isLoading (run JSON.parse
                   [FileChange (Some Sample.oak_png); ClickIdentify;
                    FileChange (Some Sample.elm_jpeg)] initial) = true).
Proof.
  exact (one_call_at_a_time_without_reset JSON.parse
           [FileChange (Some Sample.oak_png); ClickIdentify;
            FileChange (Some Sample.elm_jpeg)] eq_refl eq_refl).
Defined.

(* ===================================================================== *)
(** * Attempts that cross other events                                    *)
(* ===================================================================== *)

Lemma awaiting_handleReset s : awaiting (handleReset s) = awaiting s.
Proof. unfold handleReset. destruct (previewUrl s); reflexivity. Qed.

Lemma settle_fulfilled
  (JSON_parse : string -> ParseResult) (ai : Client) (file : File)
  (i : nat) (s : AppState) (v : json) :
  nth_error (awaiting s) i = Some file ->
  outcome (identifyTree JSON_parse ai file) = Fulfilled v ->
  settle JSON_parse i ai s
  = setIsLoading false
      (setTreeData v (setAwaiting (remove_nth i (awaiting s)) s)).
Proof. intros Hi Ho. unfold settle. now rewrite Hi, Ho. Qed.

Lemma identifyTree_parsed
  (JSON_parse : string -> ParseResult) (ai : Client) (file : File)
  (t : string) (v : json) :
  readable file = true ->
  ai (request (imagePart_of file)) = Fulfilled {| text := Some t |} ->
  JSON_parse (JsString.trim t) = Parsed v ->
  outcome (identifyTree JSON_parse ai file) = Fulfilled v.
Proof.
  intros Hr Ha Hp.
  rewrite (identifyTree_readable JSON_parse ai file Hr), Ha.
  cbn [text outcome snd]. now rewrite Hp.
Qed.

Lemma as_TreeData_truthy (v : json) (data : TreeData) :
  as_TreeData v = Some data -> Json.truthy v = true.
Proof. destruct v; [discriminate.. | reflexivity]. Qed.

(** X11: "Start Over" does not cancel the call in flight. When the page
    is reset while a call is suspended and the call then succeeds, the
    parsed value is stored although no file is selected: nothing is
    loading and no error is stored. On the page drawn for it the
    identify button is disabled, and "Start Over" is there, without the
    upload prompt, exactly when the value is truthy; a value of type
    [TreeData] is drawn as its result card beside "Start Over". *)
Theorem late_response_after_reset
  (JSON_parse : string -> ParseResult) (ai : Client) (file : File)
  (s : AppState) (t : string) (v : json) :
  selectedFile s = Some file ->
  readable file = true ->
  ai (request (imagePart_of file)) = Fulfilled {| text := Some t |} ->
  JSON_parse (JsString.trim t) = Parsed v ->
  let s' :=
    settle JSON_parse (length (awaiting s)) ai
      (handleReset (handleIdentify s)) in
  selectedFile s' = None
  /\ treeData s' = v
  /\ isLoading s' = false
  /\ error s' = None
  /\ awaiting s' = awaiting s
  /\ (drawable s' = true ->
      identifyDisabled (render s') = true
      /\ spinner (render s') = false
      /\ errorBanner (render s') = None
      /\ resetShown (render s') = Json.truthy v
      /\ uploadPrompt (render s') = negb (Json.truthy v))
  /\ (forall data,
        as_TreeData v = Some data ->
        drawable s' = true
        /\ resultDisplay (render s') = Card (ResultDisplay data)
        /\ resetShown (render s') = true
        /\ uploadPrompt (render s') = false).
Proof.
  intros Hs Hr Ha Hp. cbv zeta.
  pose proof (identifyTree_parsed JSON_parse ai file t v Hr Ha Hp) as Ho.
  assert (Hi : nth_error (awaiting (handleReset (handleIdentify s)))
                 (length (awaiting s)) = Some file).
  { rewrite awaiting_handleReset, (handleIdentify_selected s file Hs).
    unfold begun. cbn [awaiting setAwaiting]. apply nth_error_last. }
  rewrite (settle_fulfilled JSON_parse ai file _ _ v Hi Ho).
  rewrite awaiting_handleReset, (handleIdentify_selected s file Hs).
  unfold begun at 1. cbn [awaiting setAwaiting]. rewrite remove_nth_last.
  unfold drawable, handleReset, begun. cbn.
  destruct (previewUrl s); cbn.
  all: split; [reflexivity|].
  all: split; [reflexivity|].
  all: split; [reflexivity|].
  all: split; [reflexivity|].
  all: split; [apply remove_nth_last|].
  all: split;
    [ intros _; destruct (Json.truthy v); repeat split
    | intros data Hd; rewrite (as_TreeData_truthy v data Hd), Hd;
      repeat split ].
Qed.

Lemma late_response_after_reset_witness :
  selectedFile
    (settle JSON.parse 0 (Sample.answers Sample.oak_json)
       (handleReset (handleIdentify (Sample.selected Sample.oak_png))))
  = None
  /\ treeData
       (settle JSON.parse 0 (Sample.answers Sample.oak_json)
          (handleReset (handleIdentify (Sample.selected Sample.oak_png))))
     = Sample.oak_value
  /\ resultDisplay
       (render
          (settle JSON.parse 0 (Sample.answers Sample.oak_json)
             (handleReset (handleIdentify (Sample.selected Sample.oak_png)))))
     = Card
         {| heading := "Oak"; subheading := "Quercus robur";
            paragraph := "...";
            careTipsList := Some [(0, "Water weekly"); (1, "Full sun")] |}
  /\ uploadPrompt
       (render
          (settle JSON.parse 0 (Sample.answers "null")
             (handleReset (handleIdentify (Sample.selected Sample.oak_png)))))
     = true.
Proof.
  pose proof (late_response_after_reset JSON.parse
                (Sample.answers Sample.oak_json) Sample.oak_png
                (Sample.selected Sample.oak_png) Sample.oak_json
                Sample.oak_value eq_refl eq_refl eq_refl eq_refl) as H.
  pose proof (late_response_after_reset JSON.parse
                (Sample.answers "null") Sample.oak_png
                (Sample.selected Sample.oak_png) "null"
                JNull eq_refl eq_refl eq_refl eq_refl) as N.
  cbv zeta in H, N.
  destruct H as (H1 & H2 & _ & _ & _ & _ & H3).
  destruct N as (_ & _ & _ & _ & _ & N1 & _).
  split; [exact H1|]. split; [exact H2|].
  split; [exact (proj1 (proj2 (H3 _ eq_refl)))|].
  exact (proj2 (proj2 (proj2 (proj2 (N1 eq_refl))))).
Defined.

(** X12: the call works on the file that was selected when the button
    was clicked. When another file is picked while the call is
    suspended, the call still ends as [identifyTree] ends for the first
    file, and its value or its error is stored while the second file is
    the selected one. *)
Theorem result_is_of_the_file_at_the_click
  (JSON_parse : string -> ParseResult) (ai : Client) (f g : File)
  (s : AppState) :
  selectedFile s = Some f ->
  let s' :=
    settle JSON_parse (length (awaiting s)) ai
      (handleFileChange (Some g) (handleIdentify s)) in
  match outcome (identifyTree JSON_parse ai f) with
  | Fulfilled v =>
      selectedFile s' = Some g /\ treeData s' = v /\ error s' = None
      /\ isLoading s' = false
  | Rejected e =>
      selectedFile s' = Some g /\ treeData s' = JNull
      /\ error s' = Some (message_or_default e) /\ isLoading s' = false
  | Pending =>
      selectedFile s' = Some g /\ isLoading s' = true
      /\ awaiting s' = awaiting s ++ [f]
  end.
Proof.
  intros Hs. cbv zeta. unfold settle.
  rewrite (handleIdentify_selected s f Hs).
  unfold begun, handleFileChange, setSelectedFile.
  cbn [awaiting setAwaiting setTreeData setError setIsLoading].
  rewrite nth_error_last.
  destruct (outcome (identifyTree JSON_parse ai f)); cbn; repeat split.
Qed.

Lemma result_is_of_the_file_at_the_click_witness :
  selectedFile
    (settle JSON.parse 0 (Sample.answers Sample.oak_json)
       (handleFileChange (Some Sample.elm_jpeg)
          (handleIdentify (Sample.selected Sample.oak_png))))
  = Some Sample.elm_jpeg
  /\ treeData
       (settle JSON.parse 0 (Sample.answers Sample.oak_json)
          (handleFileChange (Some Sample.elm_jpeg)
             (handleIdentify (Sample.selected Sample.oak_png))))
     = Sample.oak_value.
Proof.
  pose proof (result_is_of_the_file_at_the_click JSON.parse
                (Sample.answers Sample.oak_json) Sample.oak_png
                Sample.elm_jpeg (Sample.selected Sample.oak_png) eq_refl)
    as H.
  cbv zeta in H.
  change (outcome (identifyTree JSON.parse (Sample.answers Sample.oak_json)
                     Sample.oak_png))
    with (@Fulfilled json Sample.oak_value) in H.
  destruct H as (H1 & H2 & _). split; assumption.
Defined.

(** X13: a parsed value that is falsy (null, false, zero, the empty
    string) is returned and stored like any other, and the page then
    draws no result card for the attempt: no spinner, no error and no
    prompt, with the identify button enabled again beside "Start Over";
    in the place of the result there is nothing for null, false and the
    empty string, and the text of the number for a falsy number. *)
Theorem falsy_result_draws_no_card
  (JSON_parse : string -> ParseResult) (ai : Client) (file : File)
  (s : AppState) (t : string) (v : json) :
  selectedFile s = Some file ->
  readable file = true ->
  ai (request (imagePart_of file)) = Fulfilled {| text := Some t |} ->
  JSON_parse (JsString.trim t) = Parsed v ->
  Json.truthy v = false ->
  let s' := attempt JSON_parse ai s in
  outcome (identifyTree JSON_parse ai file) = Fulfilled v
  /\ treeData s' = v
  /\ spinner (render s') = false
  /\ errorBanner (render s') = None
  /\ resultDisplay (render s')
     = match v with
       | JNum x => NumberText x
       | _ => NoResult
       end
  /\ uploadPrompt (render s') = false
  /\ identifyDisabled (render s') = false
  /\ resetShown (render s') = true.
Proof.
  intros Hs Hr Ha Hp Hv. cbv zeta.
  rewrite (attempt_outcome JSON_parse ai s file Hs).
  rewrite (identifyTree_readable JSON_parse ai file Hr), Ha.
  cbn [text outcome snd]. rewrite Hp. cbn. rewrite Hs, Hv. cbn.
  repeat split.
Qed.

Lemma falsy_result_draws_no_card_witness :
  (treeData (attempt JSON.parse (Sample.answers "null")
               (Sample.selected Sample.oak_png)) = JNull
   /\ resultDisplay (render (attempt JSON.parse (Sample.answers "null")
                               (Sample.selected Sample.oak_png))) = NoResult
   /\ uploadPrompt (render (attempt JSON.parse (Sample.answers "null")
                              (Sample.selected Sample.oak_png))) = false)
  /\ (treeData (attempt JSON.parse (Sample.answers "0")
                  (Sample.selected Sample.oak_png)) = JNum (S754_zero false)
      /\ resultDisplay (render (attempt JSON.parse (Sample.answers "0")
                                  (Sample.selected Sample.oak_png)))
         = NumberText (S754_zero false)
      /\ resetShown (render (attempt JSON.parse (Sample.answers "0")
                               (Sample.selected Sample.oak_png))) = true).
Proof.
  pose proof (falsy_result_draws_no_card JSON.parse (Sample.answers "null")
                Sample.oak_png (Sample.selected Sample.oak_png) "null" JNull
                eq_refl eq_refl eq_refl eq_refl eq_refl) as H.
  pose proof (falsy_result_draws_no_card JSON.parse (Sample.answers "0")
                Sample.oak_png (Sample.selected Sample.oak_png) "0"
                (JNum (S754_zero false))
                eq_refl eq_refl eq_refl eq_refl eq_refl) as Z.
  cbv zeta in H, Z.
  destruct H as (_ & H1 & _ & _ & H4 & H5 & _).
  destruct Z as (_ & Z1 & _ & _ & Z4 & _ & _ & Z7).
  split; (split; [|split]); assumption.
Defined.

(* ===================================================================== *)
(** * The encoder on any file, and the result card                        *)
(* ===================================================================== *)

Lemma split_not_nil sep s : JsString.split sep s <> [].
Proof.
  destruct s as [|c s]; cbn [JsString.split]; [discriminate|].
  destruct (Ascii.eqb c sep); [discriminate|].
  destruct (JsString.split sep s); discriminate.
Qed.

Lemma split_second sep s :
  JsString.has sep s = true ->
  exists d, nth_error (JsString.split sep s) 1 = Some d.
Proof.
  induction s as [|c s IH]; cbn [JsString.has JsString.split];
    [discriminate|].
  destruct (Ascii.eqb c sep) eqn:Hc; cbn [orb].
  - intros _. pose proof (split_not_nil sep s) as Hne.
    destruct (JsString.split sep s) as [|d l]; [now destruct Hne|].
    now exists d.
  - intros Hs. destruct (IH Hs) as [d Hd].
    destruct (JsString.split sep s) as [|seg segs]; [discriminate Hd|].
    now exists d.
Qed.

Lemma string_append_assoc (x y z : string) :
  ((x ++ y) ++ z)%string = (x ++ (y ++ z))%string.
Proof.
  induction x as [|c x IH]; cbn [append]; [reflexivity | now rewrite IH].
Qed.

Lemma dataURL_has_comma file : JsString.has "," (dataURL file) = true.
Proof.
  rewrite dataURL_shape, SplitFacts.has_append.
  cbn [JsString.has]. rewrite Ascii.eqb_refl. cbn. apply orb_true_r.
Qed.

(** X14: the encoder validates nothing. For every file that can be read,
    whatever its declared type and its size, it fulfils with a part that
    carries the declared type as it is and a [data] that is defined; and
    whenever the type holds no comma, [data] is the base64 of all the
    bytes and decodes back to them. *)
Theorem fileToGenerativePart_any_file (file : File) :
  readable file = true ->
  exists d,
    outcome (fileToGenerativePart file)
    = Fulfilled (InlineDataPart {| data := Some d; mimeType := type file |})
    /\ (JsString.has "," (type file) = false ->
        d = Base64.encode (bytes file)
        /\ Base64.decode d = Some (bytes file)).
Proof.
  intros Hr.
  destruct (split_second "," (dataURL file) (dataURL_has_comma file))
    as [d Hd].
  exists d. rewrite (fileToGenerativePart_readable file Hr).
  unfold imagePart_of. rewrite Hd. split; [reflexivity|].
  intros Ht. rewrite (dataURL_payload file Ht) in Hd.
  injection Hd as <-. split; [reflexivity|].
  apply Base64Facts.decode_encode.
Qed.

Lemma fileToGenerativePart_any_file_witness :
  exists d,
    outcome (fileToGenerativePart Sample2.empty_file)
    = Fulfilled (InlineDataPart {| data := Some d; mimeType := "" |})
    /\ (JsString.has "," "" = false ->
        d = Base64.encode [] /\ Base64.decode d = Some []).
Proof.
  exact (fileToGenerativePart_any_file Sample2.empty_file eq_refl).
Defined.

(** X15: the encoder takes the second comma-separated segment of the
    data: URL, and the URL carries the declared type before the payload.
    For a file whose type is [a,b] the part therefore carries the rest
    of the type and the base64 marker, not the content of the file. *)
Theorem fileToGenerativePart_comma_in_type (file : File) (a b : string) :
  readable file = true ->
  type file = (a ++ String "," b)%string ->
  JsString.has "," a = false ->
  JsString.has "," b = false ->
  outcome (fileToGenerativePart file)
  = Fulfilled
      (InlineDataPart
         {| data := Some (b ++ ";base64")%string; mimeType := type file |}).
Proof.
  intros Hr Ht Ha Hb.
  rewrite (fileToGenerativePart_readable file Hr). unfold imagePart_of.
  cbn [outcome snd]. do 3 f_equal.
  assert (Hm : mediaType file = (a ++ String "," b)%string).
  { unfold mediaType. rewrite Ht. now destruct a. }
  unfold dataURL. rewrite Hm.
  replace ("data:" ++ (a ++ String "," b) ++ ";base64,"
           ++ Base64.encode (bytes file))%string
    with (("data:" ++ a) ++ String ","
          ((b ++ ";base64") ++ String "," (Base64.encode (bytes file))))%string.
  - rewrite SplitFacts.split_at_first
      by (rewrite SplitFacts.has_append, Ha; reflexivity).
    rewrite SplitFacts.split_at_first
      by (rewrite SplitFacts.has_append, Hb; reflexivity).
    reflexivity.
  - cbn [append]. do 5 f_equal.
    rewrite !string_append_assoc. reflexivity.
Qed.

Lemma fileToGenerativePart_comma_in_type_witness :
  outcome (fileToGenerativePart Sample2.odd_type)
  = Fulfilled
      (InlineDataPart
         {| data := Some "raw;base64"; mimeType := "image/png,raw" |}).
Proof.
  exact (fileToGenerativePart_comma_in_type Sample2.odd_type
           "image/png" "raw" eq_refl eq_refl eq_refl eq_refl).
Defined.

Lemma indexed_length {A} (l : list A) (i : nat) :
  length (indexed i l) = length l.
Proof.
  revert i. induction l as [|x l IH]; intros i; cbn;
    [reflexivity | now rewrite IH].
Qed.

(** X16: [ResultDisplay] draws the list of care tips exactly when
    [careTips] is present and not empty; the list then has one item for
    each tip, in the order of the tips, keyed by position from 0. A
    missing and an empty [careTips] draw the same card. *)
Theorem ResultDisplay_care_tips (data : TreeData) :
  (careTipsList (ResultDisplay data) = None
   <-> (careTips data = None \/ careTips data = Some []))
  /\ (forall items,
         careTipsList (ResultDisplay data) = Some items ->
         careTips data = Some (map snd items)
         /\ map fst items = seq 0 (length items)
         /\ items <> []).
Proof.
  unfold ResultDisplay. cbn [careTipsList].
  destruct (careTips data) as [[|tip tips]|].
  - split; [split; auto|]. discriminate.
  - split.
    + split; [discriminate | intros [H|H]; discriminate].
    + intros items H. injection H as H. subst items.
      destruct (indexed_in_order (tip :: tips) 0) as [Hsnd Hfst].
      split; [f_equal; symmetry; exact Hsnd|].
      split; [|discriminate].
      etransitivity; [exact Hfst|]. f_equal. symmetry.
      exact (indexed_length (tip :: tips) 0).
  - split; [split; auto|]. discriminate.
Qed.

(* ===================================================================== *)
(** * Reset and retry                                                     *)
(* ===================================================================== *)

(** X17: whatever the page holds, after "Start Over" it is drawn exactly
    as on the first render, and a second reset changes nothing. *)
Theorem reset_draws_first_render (s : AppState) :
  render (handleReset s) = render initial
  /\ handleReset (handleReset s) = handleReset s.
Proof.
  unfold handleReset. destruct (previewUrl s); cbn; split; reflexivity.
Qed.

Lemma attempt_settled_cells
  (JSON_parse : string -> ParseResult) (ai : Client) (file : File)
  (s : AppState) :
  selectedFile s = Some file ->
  outcome (identifyTree JSON_parse ai file) <> Pending ->
  let s' := attempt JSON_parse ai s in
  selectedFile s' = Some file
  /\ awaiting s' = awaiting s
  /\ isLoading s' = false
  /\ treeData s'
     = match outcome (identifyTree JSON_parse ai file) with
       | Fulfilled v => v
       | _ => JNull
       end
  /\ error s'
     = match outcome (identifyTree JSON_parse ai file) with
       | Rejected e => Some (message_or_default e)
       | _ => None
       end.
Proof.
  intros Hs Hne. cbv zeta.
  rewrite (attempt_outcome JSON_parse ai s file Hs).
  destruct (outcome (identifyTree JSON_parse ai file)) as [v|e|];
    [| | now destruct Hne]; cbn; rewrite Hs; repeat split.
Qed.

(** X18: an attempt that ends, with an error or with a value that is
    drawn for sure, leaves the file selected and the identify button
    enabled, so the attempt can be repeated; an attempt that never ends
    leaves the button disabled and "Start Over" on the page. *)
Theorem attempt_leaves_page_usable
  (JSON_parse : string -> ParseResult) (ai : Client) (file : File)
  (s : AppState) :
  selectedFile s = Some file ->
  let s' := attempt JSON_parse ai s in
  drawable s' = true ->
  selectedFile s' = Some file
  /\ resetShown (render s') = true
  /\ identifyDisabled (render s')
     = match outcome (identifyTree JSON_parse ai file) with
       | Pending => true
       | _ => false
       end.
Proof.
  intros Hs. cbv zeta. intros _.
  rewrite (attempt_outcome JSON_parse ai s file Hs).
  destruct (outcome (identifyTree JSON_parse ai file)) as [v|e|];
    cbn; rewrite Hs; repeat split.
Qed.

Lemma attempt_leaves_page_usable_witness :
  identifyDisabled
    (render (attempt JSON.parse Sample.network_down
               (Sample.selected Sample.oak_png))) = false
  /\ identifyDisabled
       (render (attempt JSON.parse Sample2.silent
                  (Sample.selected Sample.oak_png))) = true
  /\ identifyDisabled
       (render (attempt JSON.parse (Sample.answers Sample2.padded_oak)
                  (Sample.selected Sample.oak_png))) = false.
Proof.
  split; [|split].
  - exact (proj2 (proj2 (attempt_leaves_page_usable JSON.parse
                           Sample.network_down Sample.oak_png
                           (Sample.selected Sample.oak_png) eq_refl
                           eq_refl))).
  - exact (proj2 (proj2 (attempt_leaves_page_usable JSON.parse
                           Sample2.silent Sample.oak_png
                           (Sample.selected Sample.oak_png) eq_refl
                           eq_refl))).
  - exact (proj2 (proj2 (attempt_leaves_page_usable JSON.parse
                           (Sample.answers Sample2.padded_oak) Sample.oak_png
                           (Sample.selected Sample.oak_png) eq_refl
                           eq_refl))).
Defined.

(** X19: a repeated attempt forgets the one before it. When an attempt
    has ended, the result, the error and the loading flag after the next
    attempt on the page are what that next attempt alone gives: nothing
    of the earlier result or error is kept. *)
Theorem retry_forgets_earlier_attempt
  (JSON_parse : string -> ParseResult) (ai1 ai2 : Client) (file : File)
  (s : AppState) :
  selectedFile s = Some file ->
  outcome (identifyTree JSON_parse ai1 file) <> Pending ->
  let once := attempt JSON_parse ai2 s in
  let twice := attempt JSON_parse ai2 (attempt JSON_parse ai1 s) in
  treeData twice = treeData once
  /\ error twice = error once
  /\ isLoading twice = isLoading once
  /\ selectedFile twice = selectedFile once
  /\ awaiting twice = awaiting once.
Proof.
  intros Hs Hne. cbv zeta.
  destruct (attempt_settled_cells JSON_parse ai1 file s Hs Hne)
    as (Hs1 & Ha1 & _).
  rewrite (attempt_outcome JSON_parse ai2 (attempt JSON_parse ai1 s) file Hs1).
  rewrite (attempt_outcome JSON_parse ai2 s file Hs).
  destruct (outcome (identifyTree JSON_parse ai2 file)) as [v|e|];
    unfold begun; cbn; rewrite ?Hs1, ?Hs, ?Ha1; repeat split.
Qed.

Lemma retry_forgets_earlier_attempt_witness :
  treeData (attempt JSON.parse (Sample.answers Sample.oak_json)
              (attempt JSON.parse Sample.network_down
                 (Sample.selected Sample.oak_png)))
  = treeData (attempt JSON.parse (Sample.answers Sample.oak_json)
                (Sample.selected Sample.oak_png))
  /\ error (attempt JSON.parse (Sample.answers Sample.oak_json)
              (attempt JSON.parse Sample.network_down
                 (Sample.selected Sample.oak_png)))
     = error (attempt JSON.parse (Sample.answers Sample.oak_json)
                (Sample.selected Sample.oak_png)).
Proof.
  pose proof (retry_forgets_earlier_attempt JSON.parse Sample.network_down
                (Sample.answers Sample.oak_json) Sample.oak_png
                (Sample.selected Sample.oak_png) eq_refl) as H.
  cbv zeta in H.
  assert (Hne : outcome (identifyTree JSON.parse Sample.network_down
                           Sample.oak_png) <> Pending) by discriminate.
  destruct (H Hne) as (H1 & H2 & _). split; assumption.
Defined.
